(** * A shallow embedding of the SSI credential service (services/api/app)

    The Python service is modelled module by module:
    - [Py]: the Python primitives the service relies on (bytes, [str.encode],
      [hashlib.sha256], [base64.urlsafe_b64encode], [bytes.hex], [str.split],
      [json.dumps]);
    - [Utils]: [merkle_commit] and [verify_merkle_proofs] (utils.py);
    - [Did]: [did_from_jwk_public] (crypto.py) and [generate_did_key] (did.py);
    - [Store]: the SQL tables, [StatusListManager] (statuslist.py) and
      [revoke] (storage.py);
    - [Challenge]: the Redis store and [ChallengeManager] (oidc_like.py);
    - [Presentation]: [PresentationBuilder] (oidc_like.py).

    Python [bytes] are lists of integers in [0, 255] (as [Z]); a Python [str]
    is a Rocq [string] whose characters are the code points U+0000..U+00FF. *)

From Stdlib Require Import ZArith Lia Ascii String List Sorted.
From stdpp Require Import base list gmap strings.
Import ListNotations.

Open Scope Z_scope.

Module Py.

(** ** Bytes and text *)

Abbreviation bytes := (list Z).

(** [str.encode()]: UTF-8 of code points below 256. *)
Definition utf8_of_char (c : ascii) : bytes :=
  let n := Z.of_nat (nat_of_ascii c) in
  if n <? 128 then [n]
  else [Z.lor 192 (Z.shiftr n 6); Z.lor 128 (Z.land n 63)].

Definition encode (s : string) : bytes :=
  List.concat (List.map utf8_of_char (list_ascii_of_string s)).

(** ** SHA-256 (FIPS 180-4), as [hashlib.sha256(...).digest()] *)

Definition add32 (a b : Z) : Z := (a + b) mod 2 ^ 32.
Definition mask32 : Z := 2 ^ 32 - 1.
Definition rotr (x : Z) (n : Z) : Z :=
  Z.lor (Z.shiftr x n) (Z.land (Z.shiftl x (32 - n)) mask32).

Definition big_sigma0 (a : Z) : Z := Z.lxor (Z.lxor (rotr a 2) (rotr a 13)) (rotr a 22).
Definition big_sigma1 (e : Z) : Z := Z.lxor (Z.lxor (rotr e 6) (rotr e 11)) (rotr e 25).
Definition small_sigma0 (w : Z) : Z := Z.lxor (Z.lxor (rotr w 7) (rotr w 18)) (Z.shiftr w 3).
Definition small_sigma1 (w : Z) : Z := Z.lxor (Z.lxor (rotr w 17) (rotr w 19)) (Z.shiftr w 10).
Definition ch (e f g : Z) : Z := Z.lxor (Z.land e f) (Z.land (Z.lxor e mask32) g).
Definition maj (a b c : Z) : Z := Z.lxor (Z.lxor (Z.land a b) (Z.land a c)) (Z.land b c).

(** The constants of FIPS 180-4, computed from their definition: the
    first 32 bits of the fractional parts of the cube roots (K) and of the
    square roots (H0) of the first primes. *)
Definition is_prime (n : Z) : bool :=
  (1 <? n) && forallb (fun q => negb (n mod q =? 0))
                      (List.map Z.of_nat (seq 2 (Z.to_nat (Z.sqrt n) - 1))).

Definition first_primes (k : nat) : list Z :=
  firstn k (List.filter is_prime (List.map Z.of_nat (seq 2 400))).

(** Largest [x] in [[lo, hi)] with [x^3 <= n], by bisection. *)
Fixpoint icbrt_search (fuel : nat) (n lo hi : Z) : Z :=
  match fuel with
  | O => lo
  | S fuel' =>
      if hi - lo <=? 1 then lo else
      let mid := (lo + hi) / 2 in
      if mid * mid * mid <=? n then icbrt_search fuel' n mid hi
      else icbrt_search fuel' n lo mid
  end.

Definition icbrt (n : Z) : Z := icbrt_search 64 n 0 (2 ^ 40).

Definition sha_K : list Z :=
  List.map (fun q => Z.land (icbrt (Z.shiftl q 96)) mask32) (first_primes 64).

Definition sha_H0 : list Z :=
  List.map (fun q => Z.land (Z.sqrt (Z.shiftl q 64)) mask32) (first_primes 8).

(** Big-endian encoding of [v] on [n] bytes. *)
Fixpoint be_bytes (n : nat) (v : Z) : bytes :=
  match n with
  | O => []
  | S n' => be_bytes n' (Z.shiftr v 8) ++ [Z.land v 255]
  end.

Definition sha_pad (m : bytes) : bytes :=
  let L := Z.of_nat (length m) in
  m ++ [128] ++ List.repeat 0 (Z.to_nat ((55 - L) mod 64)) ++ be_bytes 8 (8 * L).

Fixpoint be_words (bs : bytes) : list Z :=
  match bs with
  | b0 :: b1 :: b2 :: b3 :: rest =>
      Z.lor (Z.shiftl b0 24) (Z.lor (Z.shiftl b1 16) (Z.lor (Z.shiftl b2 8) b3))
        :: be_words rest
  | _ => []
  end.

(** Message schedule; [w] holds the words computed so far, newest first. *)
Fixpoint sha_schedule (n : nat) (w : list Z) : list Z :=
  match n with
  | O => w
  | S n' =>
      let wt := add32 (add32 (small_sigma1 (nth 1 w 0)) (nth 6 w 0))
                      (add32 (small_sigma0 (nth 14 w 0)) (nth 15 w 0)) in
      sha_schedule n' (wt :: w)
  end.

Definition sha_round (s : list Z) (kw : Z * Z) : list Z :=
  match s with
  | [a; b; c; d; e; f; g; h] =>
      let t1 := add32 (add32 (add32 (add32 h (big_sigma1 e)) (ch e f g)) kw.1) kw.2 in
      let t2 := add32 (big_sigma0 a) (maj a b c) in
      [add32 t1 t2; a; b; c; add32 d t1; e; f; g]
  | _ => s
  end.

Definition sha_compress (H : list Z) (block : bytes) : list Z :=
  let W := rev (sha_schedule 48 (rev (be_words block))) in
  List.map (fun p => add32 p.1 p.2)
    (combine H (fold_left sha_round (combine sha_K W) H)).

Fixpoint sha_blocks (fuel : nat) (H : list Z) (m : bytes) : list Z :=
  match fuel with
  | O => H
  | S fuel' =>
      match m with
      | [] => H
      | _ => sha_blocks fuel' (sha_compress H (firstn 64 m)) (skipn 64 m)
      end
  end.

Definition sha256 (m : bytes) : bytes :=
  let p := sha_pad m in
  List.concat (List.map (be_bytes 4) (sha_blocks (length p) sha_H0 p)).

(** ** Base64 and hex *)

Definition b64_alphabet : list ascii :=
  list_ascii_of_string
    "ABCDEFGHIJKLMNOPQRSTUVWXYZabcdefghijklmnopqrstuvwxyz0123456789-_".

Definition b64_char (n : Z) : ascii := nth (Z.to_nat n) b64_alphabet "A"%char.

(** [base64.urlsafe_b64encode]: groups of three bytes, "=" padding. *)
Fixpoint b64_groups (bs : bytes) : list ascii :=
  match bs with
  | b0 :: b1 :: b2 :: rest =>
      b64_char (Z.shiftr b0 2)
        :: b64_char (Z.lor (Z.shiftl (Z.land b0 3) 4) (Z.shiftr b1 4))
        :: b64_char (Z.lor (Z.shiftl (Z.land b1 15) 2) (Z.shiftr b2 6))
        :: b64_char (Z.land b2 63) :: b64_groups rest
  | [b0; b1] =>
      [b64_char (Z.shiftr b0 2);
       b64_char (Z.lor (Z.shiftl (Z.land b0 3) 4) (Z.shiftr b1 4));
       b64_char (Z.shiftl (Z.land b1 15) 2); "="%char]
  | [b0] =>
      [b64_char (Z.shiftr b0 2); b64_char (Z.shiftl (Z.land b0 3) 4); "="%char; "="%char]
  | [] => []
  end.

Definition urlsafe_b64encode (bs : bytes) : string :=
  string_of_list_ascii (b64_groups bs).

Fixpoint drop_char (c : ascii) (l : list ascii) : list ascii :=
  match l with
  | x :: l' => if Ascii.eqb x c then drop_char c l' else l
  | [] => []
  end.

(** [str.rstrip(c)] for a one-character [c]. *)
Definition rstrip (c : ascii) (s : string) : string :=
  string_of_list_ascii (rev (drop_char c (rev (list_ascii_of_string s)))).

(** [b64url] of utils.py. *)
Definition b64url (data : bytes) : string :=
  rstrip "="%char (urlsafe_b64encode data).

Definition hex_digit (n : Z) : ascii :=
  nth (Z.to_nat n) (list_ascii_of_string "0123456789abcdef") "0"%char.

(** [bytes.hex()]. *)
Definition hex (bs : bytes) : string :=
  string_of_list_ascii
    (List.concat (List.map (fun b => [hex_digit (Z.shiftr b 4); hex_digit (Z.land b 15)]) bs)).

(** [s[:n]] *)
Definition str_take (n : nat) (s : string) : string := substring 0 n s.

End Py.

Module Json.
Import Py.

(** JSON values as [json.dumps] receives them (numbers are integers). *)
#[warnings="-register-all"]
Inductive json : Type :=
  | JNull
  | JBool (b : bool)
  | JInt (z : Z)
  | JStr (s : string)
  | JArr (xs : list json)
  | JObj (kvs : list (string * json)).

(** A Python [dict] with string keys: an association list in insertion
    order; [d[k]] is the entry of key [k]. *)
Fixpoint dict_get {V} (d : list (string * V)) (k : string) : option V :=
  match d with
  | [] => None
  | (k', v) :: d' => if String.eqb k' k then Some v else dict_get d' k
  end.

Definition dq : ascii := ascii_of_nat 34.
Definition bsl : ascii := ascii_of_nat 92.

Definition hex4 (n : Z) : list ascii :=
  [hex_digit (Z.land (Z.shiftr n 12) 15); hex_digit (Z.land (Z.shiftr n 8) 15);
   hex_digit (Z.land (Z.shiftr n 4) 15); hex_digit (Z.land n 15)].

(** [py_encode_basestring_ascii]: ESCAPE_DCT, then [\uXXXX] for any other
    character outside the range ' '..'~'. *)
Definition escape_char (c : ascii) : list ascii :=
  let n := nat_of_ascii c in
  if Nat.eqb n 34 then [bsl; dq]
  else if Nat.eqb n 92 then [bsl; bsl]
  else if Nat.eqb n 10 then [bsl; "n"%char]
  else if Nat.eqb n 13 then [bsl; "r"%char]
  else if Nat.eqb n 9 then [bsl; "t"%char]
  else if Nat.eqb n 8 then [bsl; "b"%char]
  else if Nat.eqb n 12 then [bsl; "f"%char]
  else if (32 <=? n)%nat && (n <=? 126)%nat then [c]
  else bsl :: "u"%char :: hex4 (Z.of_nat n).

Definition quote (s : string) : string :=
  string_of_list_ascii
    ([dq] ++ List.concat (List.map escape_char (list_ascii_of_string s)) ++ [dq]).

Fixpoint pos_digits (fuel : nat) (n : Z) (acc : list ascii) : list ascii :=
  match fuel with
  | O => acc
  | S f =>
      let acc' := hex_digit (n mod 10) :: acc in
      if n <? 10 then acc' else pos_digits f (n / 10) acc'
  end.

(** [int.__repr__]. *)
Definition int_repr (z : Z) : string :=
  let digits n := pos_digits (S (Z.to_nat (Z.log2 n))) n [] in
  if z <? 0 then string_of_list_ascii ("-"%char :: digits (- z))
  else string_of_list_ascii (digits z).

(** [sep.join(xs)]. *)
Fixpoint join (sep : string) (xs : list string) : string :=
  match xs with
  | [] => ""
  | [x] => x
  | x :: xs' => x +:+ sep +:+ join sep xs'
  end.

Fixpoint insert_item {V} (kv : string * V) (l : list (string * V)) : list (string * V) :=
  match l with
  | [] => [kv]
  | kv' :: l' => if String.ltb kv'.1 kv.1 then kv' :: insert_item kv l' else kv :: l
  end.

(** [sorted(dct.items())] for a dict, whose keys are distinct. *)
Definition sort_items {V} (l : list (string * V)) : list (string * V) :=
  fold_right insert_item [] l.

(** [json.dumps(v, sort_keys=True, separators=(item_sep, key_sep))]
    with [ensure_ascii=True]. *)
Fixpoint dumps (item_sep key_sep : string) (v : json) : string :=
  match v with
  | JNull => "null"
  | JBool true => "true"
  | JBool false => "false"
  | JInt z => int_repr z
  | JStr s => quote s
  | JArr xs => "[" +:+ join item_sep (List.map (dumps item_sep key_sep) xs) +:+ "]"
  | JObj kvs =>
      (* the items are sorted by key; keys of a dict are distinct, so
         serialising the values first does not change the result *)
      let items := List.map (fun '(k, x) => (k, dumps item_sep key_sep x)) kvs in
      "{" +:+ join item_sep
        (List.map (fun '(k, sx) => quote k +:+ key_sep +:+ sx) (sort_items items)) +:+ "}"
  end.

(** [json.dumps(v, sort_keys=True)]: Python's default separators when no
    indent is given are [", "] and [": "]. *)
Definition dumps_sorted (v : json) : string := dumps ", " ": " v.

End Json.

Module Utils.
Import Py Json.

Record merkle := {
  m_order : list string;
  m_root : string;
  m_paths : list (list (string * string))
}.

Definition leaf (attrs : list (string * json)) (key : string) : option bytes :=
  match dict_get attrs key with
  | Some v => Some (sha256 (encode (key +:+ ":" +:+ dumps_sorted v)))
  | None => None  (* KeyError *)
  end.

(** [[f(x) for x in xs]] where [f] may raise. *)
Fixpoint map_raise {A B} (f : A -> option B) (xs : list A) : option (list B) :=
  match xs with
  | [] => Some []
  | x :: xs' =>
      match f x with
      | Some y => match map_raise f xs' with Some ys => Some (y :: ys) | None => None end
      | None => None
      end
  end.

Definition stub_path : list (string * string) :=
  [(b64url (sha256 (encode "left")), "L"); (b64url (sha256 (encode "right")), "R")].

(** [merkle_commit(attrs, order)]; [None] is the [KeyError] of [attrs[key]]. *)
Definition merkle_commit (attrs : list (string * json)) (order : list string)
    : option merkle :=
  match map_raise (leaf attrs) order with
  | None => None
  | Some leaves =>
      let paths := List.map (fun _ => stub_path) leaves in
      let root := b64url (sha256 (List.concat leaves)) in
      Some {| m_order := order; m_root := root; m_paths := paths |}
  end.

Definition verify_merkle_proofs (root : string) (order : list string)
    (paths : list (list (string * string))) (revealed : list (string * json)) : bool :=
  true.

(** The commitment as the specification words it: canonical JSON has its
    keys sorted and no insignificant whitespace. *)
Definition canonical_json (v : json) : string := dumps "," ":" v.

Definition spec_leaf (attrs : list (string * json)) (key : string) : bytes :=
  match dict_get attrs key with
  | Some v => sha256 (encode (key +:+ ":" +:+ canonical_json v))
  | None => []
  end.

Definition spec_root (attrs : list (string * json)) (order : list string) : string :=
  b64url (sha256 (List.concat (List.map (spec_leaf attrs) order))).

End Utils.

Module Did.
Import Py.

(** [str.split(sep)] for a one-character separator. *)
Fixpoint split_chars (sep : ascii) (l : list ascii) : list (list ascii) :=
  match l with
  | [] => [[]]
  | c :: l' =>
      let r := split_chars sep l' in
      if Ascii.eqb c sep then [] :: r
      else match r with
           | [] => [[c]]
           | w :: ws => (c :: w) :: ws
           end
  end.

Definition split (sep : ascii) (s : string) : list string :=
  List.map string_of_list_ascii (split_chars sep (list_ascii_of_string s)).

(** [xs[-1]] of a non-empty list. *)
Definition last_item (xs : list string) : string := List.last xs "".

(** Public part of an EC key: [urlsafe_b64decode(pub["x"] + "==")] and the
    same for ["y"], i.e. the raw affine coordinates. *)
Record ec_key := { key_x : bytes; key_y : bytes }.

(** The ["x"] member of [key.export(as_dict=True)]: base64url, no padding. *)
Definition jwk_x (k : ec_key) : string := b64url (key_x k).

Definition fingerprint (k : ec_key) : string :=
  rstrip "="%char (urlsafe_b64encode (key_x k ++ key_y k)).

(** [did_from_jwk_public] (crypto.py). *)
Definition did_from_jwk_public (k : ec_key) : string :=
  "did:key:z" +:+ str_take 46 (fingerprint k).

Record DIDDoc := {
  doc_did : string;
  public_sign : string;
  public_agree : string;
  service_endpoint : string
}.

(** [generate_did_key] (did.py), given the two keys [gen_keypair] returned;
    the key files written are the pairs [(kid, key)]. *)
Definition generate_did_key (signing agreement : ec_key)
    : string * DIDDoc * list (string * ec_key) :=
  let did := did_from_jwk_public signing in
  let saved := [(did +:+ "#sign", signing); (did +:+ "#agree", agreement)] in
  let doc := {| doc_did := did;
                public_sign := jwk_x signing;
                public_agree := jwk_x agreement;
                service_endpoint :=
                  "inbox://" +:+ str_take 8 (last_item (split ":"%char did)) |} in
  (did, doc, saved).

(** The endpoint as the specification words it. *)
Definition spec_service_endpoint (signing : ec_key) : string :=
  "inbox://" +:+ str_take 8 (fingerprint signing).

End Did.

Module Store.
Import Py.

(** Exceptions the modelled code can raise. *)
Inductive exn : Type :=
  | HTTPException (status_code : Z) (detail : string)
  | IndexError
  | ValueError
  | KeyError
  | TypeError.

Inductive outcome (A : Type) : Type :=
  | Ok (a : A)
  | Raise (e : exn).
Arguments Ok {A} a.
Arguments Raise {A} e.

(** A row of [credentials]; [status] is the JSON [{list_id, index}]. *)
Record cred_row := {
  c_id : string;
  c_issuer : string;
  c_subject : string;
  c_list_id : string;
  c_index : Z
}.

(** The tables the status list code touches. [statuslists] is keyed by its
    primary key [list_id] and holds [(issuer, bitmap)]. *)
Record db := {
  credentials : list cred_row;
  revocations : list (string * Z);
  statuslists : gmap string (string * bytes)
}.

Definition set_statuslists (d : db) (s : gmap string (string * bytes)) : db :=
  {| credentials := credentials d; revocations := revocations d; statuslists := s |}.

Definition set_revocations (d : db) (r : list (string * Z)) : db :=
  {| credentials := credentials d; revocations := r; statuslists := statuslists d |}.

(** [SELECT MAX((status->>'index')::int) FROM credentials
    WHERE status->>'list_id'=:l]; [None] is SQL NULL. *)
Fixpoint max_index (rows : list cred_row) (l : string) : option Z :=
  match rows with
  | [] => None
  | r :: rows' =>
      let m := max_index rows' l in
      if String.eqb (c_list_id r) l
      then Some (match m with Some m' => Z.max (c_index r) m' | None => c_index r end)
      else m
  end.

Definition coalesce (o : option Z) (d : Z) : Z :=
  match o with Some z => z | None => d end.

(** Python's [x or d] for an [int] [x]: [0] is falsy. *)
Definition py_or (x d : Z) : Z := if x =? 0 then d else x.

Definition status_list_id (issuer_did : string) : string := "status:" +:+ issuer_did.

(** [StatusListManager._get_or_create_list]. *)
Definition get_or_create_list (d : db) (issuer_did : string) : db * string :=
  let list_id := status_list_id issuer_did in
  match statuslists d !! list_id with
  | Some _ => (d, list_id)
  | None => (set_statuslists d (<[list_id := (issuer_did, [])]> (statuslists d)), list_id)
  end.

(** [StatusListManager.allocate]. *)
Definition allocate (d : db) (issuer_did : string) : db * (string * Z) :=
  let '(d1, list_id) := get_or_create_list d issuer_did in
  let row0 := coalesce (max_index (credentials d1) list_id) (-1) in
  let idx := py_or row0 (-1) + 1 in
  (d1, (list_id, idx)).

(** The allocation as the specification words it. *)
Definition spec_allocate_index (d : db) (list_id : string) : Z :=
  match max_index (credentials d) list_id with
  | Some m => m + 1
  | None => 0
  end.

(** Python list indexing [xs[i]], negative indices counting from the end. *)
Definition py_norm (len i : Z) : option nat :=
  let j := if i <? 0 then i + len else i in
  if (0 <=? j) && (j <? len) then Some (Z.to_nat j) else None.

Definition py_get (xs : bytes) (i : Z) : outcome Z :=
  match py_norm (Z.of_nat (length xs)) i with
  | Some j => match xs !! j with Some v => Ok v | None => Raise IndexError end
  | None => Raise IndexError
  end.

(** [xs[i] |= v] on a [bytearray]. *)
Definition py_or_assign (xs : bytes) (i v : Z) : outcome bytes :=
  match py_norm (Z.of_nat (length xs)) i with
  | Some j => match xs !! j with
              | Some old => Ok (<[j := Z.lor old v]> xs)
              | None => Raise IndexError
              end
  | None => Raise IndexError
  end.

(** [SELECT idx FROM revocations WHERE list_id=:l]. *)
Definition revoked_indices (d : db) (l : string) : list Z :=
  List.map snd (List.filter (fun r => String.eqb r.1 l) (revocations d)).

(** The loop of [publish] setting one bit per revoked index. *)
Fixpoint set_bits (bitmap : bytes) (idxs : list Z) : outcome bytes :=
  match idxs with
  | [] => Ok bitmap
  | idx :: idxs' =>
      match py_or_assign bitmap (idx / 8) (Z.shiftl 1 (idx mod 8)) with
      | Ok bm => set_bits bm idxs'
      | Raise e => Raise e
      end
  end.

Record status_doc := { sd_id : string; sd_encoding : string; sd_data : string }.

(** [UPDATE statuslists SET bitmap=:bm WHERE list_id=:l]. *)
Definition update_bitmap (d : db) (l : string) (bm : bytes) : db :=
  match statuslists d !! l with
  | Some (iss, _) => set_statuslists d (<[l := (iss, bm)]> (statuslists d))
  | None => d
  end.

(** [StatusListManager.publish]. *)
Definition publish (d : db) (list_id : string) : db * outcome status_doc :=
  let mx := coalesce (max_index (credentials d) list_id) 0 in
  let size := mx + 1 in
  let bytes_len := (size + 7) / 8 in  (* math.ceil(size / 8) *)
  if bytes_len <? 0 then (d, Raise ValueError) else
  match set_bits (replicate (Z.to_nat bytes_len) 0) (revoked_indices d list_id) with
  | Raise e => (d, Raise e)
  | Ok bitmap =>
      (update_bitmap d list_id bitmap,
       Ok {| sd_id := list_id; sd_encoding := "bitset"; sd_data := hex bitmap |})
  end.

(** [StatusListManager.is_revoked]. *)
Definition is_revoked (d : db) (list_id : string) (idx : Z) : outcome bool :=
  match statuslists d !! list_id with
  | None => Ok false
  | Some (_, bitmap) =>
      let byte := idx / 8 in
      let bit := idx mod 8 in
      if Z.of_nat (length bitmap) <=? byte then Ok false
      else match py_get bitmap byte with
           | Ok b => Ok (negb (Z.land b (Z.shiftl 1 bit) =? 0))
           | Raise e => Raise e
           end
  end.

Fixpoint find_credential (rows : list cred_row) (cred_id : string) : option cred_row :=
  match rows with
  | [] => None
  | r :: rows' => if String.eqb (c_id r) cred_id then Some r else find_credential rows' cred_id
  end.

(** [revoke] (storage.py): the state after the transaction and the exception
    it raises, if any. *)
Definition revoke (d : db) (cred_id : string) : db * option exn :=
  match find_credential (credentials d) cred_id with
  | None => (d, Some (HTTPException 404 "credential not found"))
  | Some r =>
      let entry := (c_list_id r, c_index r) in
      if existsb (fun e => String.eqb e.1 entry.1 && (e.2 =? entry.2)) (revocations d)
      then (d, None)  (* ON CONFLICT DO NOTHING *)
      else (set_revocations d (revocations d ++ [entry]), None)
  end.

(** The tables as [revoke] keeps them: every revoked index of list [l] is
    the (non-negative) status index of a credential of [l]. *)
Definition revocations_consistent (d : db) (l : string) : Prop :=
  (forall i, In (l, i) (revocations d) ->
     exists r, In r (credentials d) /\ c_list_id r = l /\ c_index r = i) /\
  (forall r, In r (credentials d) -> c_list_id r = l -> 0 <= c_index r).

(** Bit [i] of a little-endian bit-packed bitmap (absent bytes are zero). *)
Definition bitmap_bit (bm : bytes) (i : Z) : bool :=
  match bm !! Z.to_nat (i / 8) with
  | Some b => Z.testbit b (i mod 8)
  | None => false
  end.

End Store.

Module Challenge.
Import Py Json Store.

(** The Redis store: each key maps to the JSON document whose text
    [json.dumps] wrote there (and [json.loads] reads back). A key whose TTL
    ran out is simply absent. *)
Abbreviation redis := (gmap string json).

Definition challenge_key (nonce : string) : string := "ch:" +:+ nonce.

Record challenge := { ch_nonce : string; ch_aud : string; ch_exp : Z }.

(** [ChallengeManager.issue]; [rnd] are the 12 bytes of [os.urandom(12)]
    and [now] the value of [now_ts()]. *)
Definition issue (r : redis) (rnd : bytes) (now : Z) (aud : string) : redis * challenge :=
  let nonce := b64url rnd in
  let exp := now + 300 in
  (<[challenge_key nonce := JObj [("aud", JStr aud); ("exp", JInt exp)]]> r,
   {| ch_nonce := nonce; ch_aud := aud; ch_exp := exp |}).

(** [doc[k]] on a parsed JSON document. *)
Definition json_item (doc : json) (k : string) : outcome json :=
  match doc with
  | JObj kvs => match dict_get kvs k with Some v => Ok v | None => Raise KeyError end
  | _ => Raise TypeError
  end.

(** Python's [v == s] for a JSON value [v] and a [str] [s]. *)
Definition py_eq_str (v : json) (s : string) : bool :=
  match v with JStr s' => String.eqb s' s | _ => false end.

(** [ChallengeManager.validate]. [json.dumps] never yields an empty
    string, so [not value] holds exactly when the key is absent. *)
Definition validate (r : redis) (now : Z) (nonce aud : string) : redis * outcome (bool * string) :=
  match r !! challenge_key nonce with
  | None => (r, Ok (false, "nonce not found"))
  | Some doc =>
      match json_item doc "aud" with
      | Raise e => (r, Raise e)
      | Ok a =>
          if negb (py_eq_str a aud) then (r, Ok (false, "aud mismatch")) else
          match json_item doc "exp" with
          | Raise e => (r, Raise e)
          | Ok (JInt e) =>
              if e <? now then (r, Ok (false, "expired"))
              else (delete (challenge_key nonce) r, Ok (true, "ok"))
          | Ok _ => (r, Raise TypeError)
          end
      end
  end.

(** A sequence of [validate] calls [(now, nonce, aud)] on one store; each
    result is tagged with the nonce it was asked about. *)
Fixpoint run_validates (r : redis) (calls : list (Z * string * string))
    : redis * list (string * outcome (bool * string)) :=
  match calls with
  | [] => (r, [])
  | (now, nonce, aud) :: calls' =>
      let '(r1, res) := validate r now nonce aud in
      let '(r2, rest) := run_validates r1 calls' in
      (r2, (nonce, res) :: rest)
  end.

Definition results_for (nonce : string) (rs : list (string * outcome (bool * string)))
    : list (outcome (bool * string)) :=
  List.map snd (List.filter (fun p => String.eqb p.1 nonce) rs).

Definition is_success (o : outcome (bool * string)) : bool :=
  match o with Ok (true, _) => true | _ => false end.

(** After the first success, every result is ["nonce not found"]. *)
Fixpoint single_use (os : list (outcome (bool * string))) : Prop :=
  match os with
  | [] => True
  | o :: os' =>
      if is_success o then Forall (fun o' => o' = Ok (false, "nonce not found")) os'
      else single_use os'
  end.

End Challenge.

Module Presentation.
Import Py Json Utils Store Challenge.

(** A credential as [get_credential] returns it. *)
Record credential := {
  cr_id : string;
  cr_issuer : string;
  cr_subject : string;
  cr_schema : string;
  cr_attrs : list (string * json);
  cr_merkle : merkle;
  cr_list_id : string;
  cr_index : Z
}.

Record cred_claims := {
  pc_id : string;
  pc_issuer : string;
  pc_subject : string;
  pc_schema : string;
  pc_list_id : string;
  pc_index : Z;
  pc_root : string;
  pc_order : list string;
  pc_proofs : list (list (string * string));
  pc_revealed : list (string * json)
}.

Record payload := {
  p_aud : string;
  p_iat : Z;
  p_exp : Z;
  p_nonce : string;
  p_cred : cred_claims
}.

(** [d[k] = v] on a dict: an existing key keeps its place. *)
Fixpoint dict_set {V} (d : list (string * V)) (k : string) (v : V) : list (string * V) :=
  match d with
  | [] => [(k, v)]
  | (k', v') :: d' => if String.eqb k' k then (k, v) :: d' else (k', v') :: dict_set d' k v
  end.

(** [{key: attrs[key] for key in reveal_fields if key in attrs}]. *)
Definition reveal (attrs : list (string * json)) (reveal_fields : list string)
    : list (string * json) :=
  fold_left (fun acc key =>
               match dict_get attrs key with
               | Some v => dict_set acc key v
               | None => acc
               end) reveal_fields [].

Record verify_result := { vr_ok : bool; vr_message : string; vr_disclosed : list (string * json) }.

Section WithJWE.

(** [json.dumps(payload).encode()] followed by [jwe_encrypt_for_did] to the
    verifier's agreement key ([None]: the [RuntimeError] raised when the key
    file is missing), and [jwe_decrypt_for_did] with that key followed by
    [json.loads]. *)
Variable box : Type.
Variable seal : string -> payload -> option box.
Variable unseal : box -> payload.

(** [PresentationBuilder.build]: [now] is [now_ts()], [rnd] the random
    bytes of the nonce. *)
Definition build (r : redis) (now : Z) (rnd : bytes) (verifier_did : string)
    (cred : credential) (reveal_fields : list string) : redis * outcome box :=
  let order := m_order (cr_merkle cred) in
  let proofs := m_paths (cr_merkle cred) in
  let revealed := reveal (cr_attrs cred) reveal_fields in
  let '(r1, ch) := issue r rnd now verifier_did in
  let p := {| p_aud := verifier_did; p_iat := now; p_exp := now + 300;
              p_nonce := ch_nonce ch;
              p_cred := {| pc_id := cr_id cred; pc_issuer := cr_issuer cred;
                           pc_subject := cr_subject cred; pc_schema := cr_schema cred;
                           pc_list_id := cr_list_id cred; pc_index := cr_index cred;
                           pc_root := m_root (cr_merkle cred); pc_order := order;
                           pc_proofs := proofs; pc_revealed := revealed |} |} in
  match seal verifier_did p with
  | Some b => (r1, Ok b)
  | None => (r1, Raise (HTTPException 500 ("no agreement key available for " +:+ verifier_did)))
  end.

(** [PresentationBuilder.verify_and_extract] after decryption. *)
Definition verify_and_extract (r : redis) (d : db) (now : Z) (b : box)
    : redis * outcome verify_result :=
  let doc := unseal b in
  let '(r1, v) := validate r now (p_nonce doc) (p_aud doc) in
  match v with
  | Raise e => (r1, Raise e)
  | Ok (false, why) => (r1, Raise (HTTPException 400 ("challenge invalid: " +:+ why)))
  | Ok (true, _) =>
      let c := p_cred doc in
      match is_revoked d (pc_list_id c) (pc_index c) with
      | Raise e => (r1, Raise e)
      | Ok true => (r1, Raise (HTTPException 400 "credential revoked"))
      | Ok false =>
          if negb (verify_merkle_proofs (pc_root c) (pc_order c) (pc_proofs c) (pc_revealed c))
          then (r1, Raise (HTTPException 400 "merkle proof failed"))
          else (r1, Ok {| vr_ok := true; vr_message := "verified OK";
                          vr_disclosed := pc_revealed c |})
      end
  end.

End WithJWE.

End Presentation.

Module Issuance.
Import Py Json Utils Store Presentation.

(** [sorted(keys)] on strings. *)
Fixpoint insert_str (k : string) (l : list string) : list string :=
  match l with
  | [] => [k]
  | k' :: l' => if String.ltb k' k then k' :: insert_str k l' else k :: l
  end.

Definition py_sorted (ks : list string) : list string := fold_right insert_str [] ks.

Inductive issue_error : Type :=
  | StoreError (e : exn)
  | IntegrityError.  (* duplicate primary key on INSERT *)

(** [create_credential] (storage.py): the new row, and the credential dict
    with its [issued_at]; the INSERT fails on an existing [id]. *)
Definition create_credential (d : db) (now : Z) (issuer_did subject_did : string)
    (attrs : list (string * json)) (list_id : string) (index : Z)
    : db * (credential * Z + issue_error) :=
  let issued_at := now in
  let order := py_sorted (List.map fst attrs) in
  match merkle_commit attrs order with
  | None => (d, inr (StoreError KeyError))
  | Some merkle =>
      let cred_id := "cred:" +:+ issuer_did +:+ ":" +:+ int_repr index in
      let data := {| cr_id := cred_id; cr_issuer := issuer_did; cr_subject := subject_did;
                     cr_schema := "example:student-id-v1"; cr_attrs := attrs;
                     cr_merkle := merkle; cr_list_id := list_id; cr_index := index |} in
      let row := {| c_id := cred_id; c_issuer := issuer_did; c_subject := subject_did;
                    c_list_id := list_id; c_index := index |} in
      if existsb (fun r => String.eqb (c_id r) cred_id) (credentials d)
      then (d, inr IntegrityError)
      else ({| credentials := credentials d ++ [row]; revocations := revocations d;
               statuslists := statuslists d |}, inl (data, issued_at))
  end.

(** Lines 81-82 of [issuer_issue] (main.py): allocate, then store. *)
Definition issue_credential (d : db) (now : Z) (issuer_did subject_did : string)
    (attrs : list (string * json)) : db * (credential * Z + issue_error) :=
  let '(d1, (list_id, index)) := allocate d issuer_did in
  create_credential d1 now issuer_did subject_did attrs list_id index.

End Issuance.

Module Handlers.
Import Py Json Utils Store Challenge Presentation.

Record present_request := {
  pr_holder_did : string;
  pr_cred_id : string;
  pr_reveal_fields : list string;
  pr_verifier_did : string
}.

(** [get_credential] over the credentials table read as full records. *)
Fixpoint get_credential (creds : list credential) (cred_id : string) : option credential :=
  match creds with
  | [] => None
  | c :: creds' => if String.eqb (cr_id c) cred_id then Some c else get_credential creds' cred_id
  end.

Section WithJWE.
Variable box : Type.
Variable seal : string -> payload -> option box.

(** [holder_present] (main.py); [holders] and [verifiers] are the party
    tables keyed by DID. *)
Definition holder_present (holders verifiers : gmap string Did.DIDDoc) (creds : list credential)
    (r : redis) (now : Z) (rnd : bytes) (req : present_request) : redis * outcome box :=
  match holders !! pr_holder_did req, verifiers !! pr_verifier_did req with
  | Some _, Some vdoc =>
      match get_credential creds (pr_cred_id req) with
      | Some cred =>
          if String.eqb (cr_subject cred) (pr_holder_did req)
          then build box seal r now rnd (Did.doc_did vdoc) cred (pr_reveal_fields req)
          else (r, Raise (HTTPException 400 "credential not found or not owned by holder"))
      | None => (r, Raise (HTTPException 400 "credential not found or not owned by holder"))
      end
  | _, _ => (r, Raise (HTTPException 400 "unknown holder or verifier"))
  end.

End WithJWE.

End Handlers.

Module Jwe.
Import Py Json Store.

Record jwe_box := { jb_protected : string; jb_eph : string; jb_nonce : string;
                    jb_ct : string; jb_tag : string }.

(** The end of [jwe_encrypt_for_did]: [compact.split(".")] and [parts[0..4]]. *)
Definition box_of_compact (compact : string) : outcome jwe_box :=
  match Did.split "."%char compact with
  | p0 :: p1 :: p2 :: p3 :: p4 :: _ =>
      Ok {| jb_protected := p0; jb_eph := p1; jb_nonce := p2; jb_ct := p3; jb_tag := p4 |}
  | _ => Raise IndexError
  end.

(** The start of [jwe_decrypt_for_did]: [".".join([protected, eph, nonce, ct, tag])]. *)
Definition compact_of_box (b : jwe_box) : string :=
  join "." [jb_protected b; jb_eph b; jb_nonce b; jb_ct b; jb_tag b].

End Jwe.

Module Demo.
Import Py Json Store Challenge.

Definition r_demo : redis :=
  {[ challenge_key "n0" := JObj [("aud", JStr "did:key:zV"); ("exp", JInt 1300)] ]}.

Definition db_empty : db := {| credentials := []; revocations := []; statuslists := ∅ |}.

Definition issuer_demo : string := "did:key:zIssuer".
Definition list_demo : string := status_list_id issuer_demo.

Definition cred_demo : cred_row :=
  {| c_id := "cred:did:key:zIssuer:0"; c_issuer := issuer_demo; c_subject := "did:key:zHolder";
     c_list_id := list_demo; c_index := 0 |}.

(** One credential at index 0; its list was published while nothing was
    revoked. *)
Definition db_one : db :=
  {| credentials := [cred_demo]; revocations := [];
     statuslists := {[ list_demo := (issuer_demo, [0]) ]} |}.

(** [db_one] after revoking its credential. *)
Definition db_rev : db :=
  {| credentials := [cred_demo]; revocations := [(list_demo, 0)];
     statuslists := {[ list_demo := (issuer_demo, [0]) ]} |}.

(** A P-256 key whose coordinates are all zero bytes. *)
Definition key_zero : Did.ec_key := {| Did.key_x := replicate 32 0; Did.key_y := replicate 32 0 |}.

Definition attrs_nested : list (string * json) :=
  [("k", JObj [("a", JInt 1); ("b", JInt 2)])].

Definition cred_alice : Presentation.credential :=
  {| Presentation.cr_id := "cred:did:key:zIssuer:0"; Presentation.cr_issuer := issuer_demo;
     Presentation.cr_subject := "did:key:zHolder"; Presentation.cr_schema := "example:student-id-v1";
     Presentation.cr_attrs := [("name", JStr "Alice"); ("status", JStr "student")];
     Presentation.cr_merkle :=
       {| Utils.m_order := ["name"; "status"]; Utils.m_root := "root";
          Utils.m_paths := [Utils.stub_path; Utils.stub_path] |};
     Presentation.cr_list_id := list_demo; Presentation.cr_index := 0 |}.

Definition rnd_demo : bytes := [1; 2; 3; 4; 5; 6; 7; 8; 9; 10; 11; 12].

End Demo.

(** * Properties *)

Module PrimitiveTests.
Import Py Json.

(** Test vectors of FIPS 180-4 and RFC 4648. *)
Example sha256_abc :
  hex (sha256 (encode "abc")) =
  "ba7816bf8f01cfea414140de5dae2223b00361a396177a9cb410ff61f20015ad".
Proof. vm_compute. reflexivity. Qed.

Example sha256_empty :
  hex (sha256 []) = "e3b0c44298fc1c149afbf4c8996fb92427ae41e4649b934ca495991b7852b855".
Proof. vm_compute. reflexivity. Qed.

Example b64url_foob : b64url (encode "foob") = "Zm9vYg".
Proof. vm_compute. reflexivity. Qed.

Example dumps_sorted_spaces :
  dumps_sorted (JArr [JInt 1; JInt (-20); JNull]) = "[1, -20, null]".
Proof. vm_compute. reflexivity. Qed.

End PrimitiveTests.

Module ChallengeProofs.
Import Py Json Store Challenge Demo.

Lemma challenge_key_inj (a b : string) : challenge_key a = challenge_key b -> a = b.
Proof. unfold challenge_key. simpl. intros H. by injection H. Qed.

Lemma validate_absent (r : redis) now nonce aud :
  r !! challenge_key nonce = None ->
  validate r now nonce aud = (r, Ok (false, "nonce not found")).
Proof. intros H. unfold validate. by rewrite H. Qed.

(** [validate] only ever removes the key it was asked about. *)
Lemma validate_store (r : redis) now nonce aud :
  (validate r now nonce aud).1 = r \/
  ((validate r now nonce aud).1 = delete (challenge_key nonce) r /\
   (validate r now nonce aud).2 = Ok (true, "ok")).
Proof.
  unfold validate.
  destruct (r !! challenge_key nonce) as [doc|]; [|by left].
  destruct (json_item doc "aud") as [a|e]; [|by left].
  destruct (negb (py_eq_str a aud)); [by left|].
  destruct (json_item doc "exp") as [[| | e | | |]|e]; try by left.
  destruct (e <? now); [by left|by right].
Qed.

Lemma validate_keeps_absent (r : redis) now nonce aud k :
  r !! k = None -> (validate r now nonce aud).1 !! k = None.
Proof.
  intros H. destruct (validate_store r now nonce aud) as [E|[E _]]; rewrite E; [done|].
  apply lookup_delete_None. by right.
Qed.

Lemma validate_success_deletes (r : redis) now nonce aud w :
  (validate r now nonce aud).2 = Ok (true, w) ->
  (validate r now nonce aud).1 !! challenge_key nonce = None.
Proof.
  intros Hs. destruct (validate_store r now nonce aud) as [E|[E _]].
  - unfold validate in *.
    destruct (r !! challenge_key nonce) as [doc|]; [|simpl in Hs; discriminate].
    destruct (json_item doc "aud") as [a|e]; [|discriminate].
    destruct (negb (py_eq_str a aud)); [discriminate|].
    destruct (json_item doc "exp") as [[| | e | | |]|e]; try discriminate.
    destruct (e <? now); [discriminate|]. simpl. apply lookup_delete_eq.
  - rewrite E. apply lookup_delete_eq.
Qed.

Lemma results_for_cons nonce m o rs :
  results_for nonce ((m, o) :: rs) =
  if String.eqb m nonce then o :: results_for nonce rs else results_for nonce rs.
Proof. unfold results_for. simpl. by destruct (String.eqb m nonce). Qed.

Lemma run_validates_absent (r : redis) nonce calls :
  r !! challenge_key nonce = None ->
  Forall (fun o => o = Ok (false, "nonce not found"))
    (results_for nonce (run_validates r calls).2).
Proof.
  revert r. induction calls as [|[[now m] a] calls IH]; intros r H; [constructor|].
  simpl. destruct (validate r now m a) as [r1 res] eqn:E.
  destruct (run_validates r1 calls) as [r2 rest] eqn:E2. simpl.
  rewrite results_for_cons.
  assert (H1 : r1 !! challenge_key nonce = None).
  { replace r1 with (validate r now m a).1 by (by rewrite E).
    by apply validate_keeps_absent. }
  specialize (IH r1 H1). rewrite E2 in IH. simpl in IH.
  destruct (String.eqb m nonce) eqn:Em; [|done].
  apply String.eqb_eq in Em. subst m.
  rewrite validate_absent in E by done. injection E as <- <-.
  by constructor.
Qed.

Lemma single_use_at_most_one os : single_use os -> (length (List.filter is_success os) <= 1)%nat.
Proof.
  induction os as [|o os IH]; simpl; [lia|].
  destruct (is_success o) eqn:Eo; [|auto].
  intros Hf. simpl.
  assert (List.filter is_success os = []) as ->; [|simpl; lia].
  clear IH. induction Hf as [|o' os' Ho' Hf' IHf]; [done|].
  subst o'. simpl. exact IHf.
Qed.

(** ** C3: the outcomes of [validate]
    A missing record gives ["nonce not found"]; a stored audience other
    than [aud] gives ["aud mismatch"]; a stored [exp] below the current time
    gives ["expired"]; otherwise the key is deleted and the result is
    [(true, "ok")]. The store changes only in that last case. *)
Theorem validate_outcomes (r : redis) (now : Z) (nonce aud : string) :
  (r !! challenge_key nonce = None ->
   validate r now nonce aud = (r, Ok (false, "nonce not found"))) /\
  (forall kvs a e,
     r !! challenge_key nonce = Some (JObj kvs) ->
     dict_get kvs "aud" = Some (JStr a) ->
     dict_get kvs "exp" = Some (JInt e) ->
     (a <> aud -> validate r now nonce aud = (r, Ok (false, "aud mismatch"))) /\
     (a = aud -> e < now -> validate r now nonce aud = (r, Ok (false, "expired"))) /\
     (a = aud -> now <= e ->
      validate r now nonce aud = (delete (challenge_key nonce) r, Ok (true, "ok")))) /\
  ((validate r now nonce aud).2 <> Ok (true, "ok") -> (validate r now nonce aud).1 = r).
Proof.
  split; [apply validate_absent|]. split.
  - intros kvs a e Hr Ha He. unfold validate. rewrite Hr. simpl.
    rewrite Ha. simpl. split; [|split].
    + intros Hne. apply String.eqb_neq in Hne. by rewrite Hne.
    + intros <- Hlt. rewrite String.eqb_refl. simpl. rewrite He.
      apply Z.ltb_lt in Hlt. by rewrite Hlt.
    + intros <- Hle. rewrite String.eqb_refl. simpl. rewrite He.
      assert (Hge : (e <? now) = false) by (apply Z.ltb_ge; lia). by rewrite Hge.
  - intros Hn. destruct (validate_store r now nonce aud) as [E|[_ E]]; [done|].
    by rewrite E in Hn.
Qed.

Lemma validate_outcomes_witness :
  r_demo !! challenge_key "n0" = Some (JObj [("aud", JStr "did:key:zV"); ("exp", JInt 1300)]) /\
  validate r_demo 1000 "n0" "did:key:zV" = (delete (challenge_key "n0") r_demo, Ok (true, "ok")) /\
  validate r_demo 1000 "n1" "did:key:zV" = (r_demo, Ok (false, "nonce not found")).
Proof.
  assert (Hr : r_demo !! challenge_key "n0" =
               Some (JObj [("aud", JStr "did:key:zV"); ("exp", JInt 1300)])) by reflexivity.
  split; [exact Hr|]. split.
  - destruct (validate_outcomes r_demo 1000 "n0" "did:key:zV") as [_ [H _]].
    destruct (H _ "did:key:zV" 1300 Hr eq_refl eq_refl) as [_ [_ H3]].
    apply H3; [reflexivity|lia].
  - destruct (validate_outcomes r_demo 1000 "n1" "did:key:zV") as [H _].
    apply H. reflexivity.
Defined.

(** ** C4: single use of a nonce
    Over any sequence of [validate] calls on one store, the calls about a
    given nonce succeed at most once, and every call about it after the
    success returns ["nonce not found"]. *)
Theorem nonce_single_use (r : redis) (calls : list (Z * string * string)) (nonce : string) :
  let os := results_for nonce (run_validates r calls).2 in
  (length (List.filter is_success os) <= 1)%nat /\ single_use os.
Proof.
  cbv zeta.
  assert (Hsu : single_use (results_for nonce (run_validates r calls).2)).
  { revert r. induction calls as [|[[now m] a] calls IH]; intros r; [exact I|].
    simpl. destruct (validate r now m a) as [r1 res] eqn:E.
    destruct (run_validates r1 calls) as [r2 rest] eqn:E2. simpl.
    rewrite results_for_cons.
    specialize (IH r1). rewrite E2 in IH. simpl in IH.
    destruct (String.eqb m nonce) eqn:Em; [|exact IH].
    apply String.eqb_eq in Em. subst m. simpl.
    destruct (is_success res) eqn:Es; [|exact IH].
    assert (Hw : exists w, res = Ok (true, w)).
    { destruct res as [[[|] w]|]; try discriminate. eauto. }
    destruct Hw as [w ->].
    pose proof (validate_success_deletes r now nonce a w) as Hd.
    rewrite E in Hd. specialize (Hd eq_refl). simpl in Hd.
    pose proof (run_validates_absent r1 nonce calls Hd) as Hf.
    by rewrite E2 in Hf. }
  split; [by apply single_use_at_most_one|exact Hsu].
Qed.

End ChallengeProofs.

Module MerkleStubProofs.
Import Utils.

(** ** C7: the Merkle proof verifier accepts every input. *)
Theorem verify_merkle_proofs_accepts root order paths revealed :
  verify_merkle_proofs root order paths revealed = true.
Proof. reflexivity. Qed.

End MerkleStubProofs.

Module StatusProofs.
Import Py Store Demo.

(** ** Lookups in the credentials table *)

Lemma find_credential_none (rows : list cred_row) cid :
  (forall r, In r rows -> c_id r <> cid) -> find_credential rows cid = None.
Proof.
  induction rows as [|r rows IH]; intros H; [done|]. simpl.
  destruct (String.eqb (c_id r) cid) eqn:E.
  - apply String.eqb_eq in E. exfalso. apply (H r); [left|]; done.
  - apply IH. intros r' Hr'. apply H. by right.
Qed.

Lemma find_credential_in (rows : list cred_row) cid r :
  find_credential rows cid = Some r -> In r rows.
Proof.
  induction rows as [|r' rows IH]; simpl; [discriminate|].
  destruct (String.eqb (c_id r') cid); [intros [= ->]; by left|].
  intros H. right. by apply IH.
Qed.

Lemma max_index_upper (rows : list cred_row) l m :
  max_index rows l = Some m -> forall r, In r rows -> c_list_id r = l -> c_index r <= m.
Proof.
  revert m. induction rows as [|r' rows IH]; intros m; simpl; [discriminate|].
  destruct (String.eqb (c_list_id r') l) eqn:E.
  - destruct (max_index rows l) as [m'|] eqn:Em; intros [= <-] r [<-|Hin] Hl.
    + lia.
    + specialize (IH m' eq_refl r Hin Hl). lia.
    + lia.
    + exfalso. clear IH. induction rows as [|r0 rows IHr]; [done|].
      simpl in Em, Hin. destruct (String.eqb (c_list_id r0) l) eqn:E0; [discriminate|].
      destruct Hin as [<-|Hin]; [|by apply IHr].
      rewrite Hl, String.eqb_refl in E0. discriminate.
  - intros Hm r [<-|Hin] Hl.
    + rewrite Hl, String.eqb_refl in E. discriminate.
    + by apply (IH m Hm r).
Qed.

Lemma max_index_some (rows : list cred_row) l r :
  In r rows -> c_list_id r = l -> exists m, max_index rows l = Some m.
Proof.
  induction rows as [|r' rows IH]; simpl; [done|]. intros [<-|Hin] Hl.
  - rewrite Hl, String.eqb_refl. eauto.
  - destruct (String.eqb (c_list_id r') l); [eauto|]. by apply IH.
Qed.

Lemma max_index_attained (rows : list cred_row) l m :
  max_index rows l = Some m -> exists r, In r rows /\ c_list_id r = l /\ c_index r = m.
Proof.
  revert m. induction rows as [|r' rows IH]; intros m; simpl; [discriminate|].
  destruct (String.eqb (c_list_id r') l) eqn:E.
  - apply String.eqb_eq in E.
    destruct (max_index rows l) as [m'|] eqn:Em; intros [= <-].
    + destruct (Z.max_spec (c_index r') m') as [[_ ->]|[_ ->]].
      * destruct (IH m' eq_refl) as (r & ? & ? & ?). exists r. auto.
      * exists r'. auto.
    + exists r'. auto.
  - intros Hm. destruct (IH m Hm) as (r & ? & ? & ?). exists r. auto.
Qed.

Lemma revoked_indices_spec (d : db) l i :
  In i (revoked_indices d l) <-> In (l, i) (revocations d).
Proof.
  unfold revoked_indices. rewrite in_map_iff. split.
  - intros [[l' i'] [Hi Hin]]. simpl in Hi. subst i'.
    apply filter_In in Hin as [Hin Hl]. simpl in Hl. apply String.eqb_eq in Hl. by subst.
  - intros Hin. exists (l, i). split; [done|]. apply filter_In. split; [done|].
    simpl. apply String.eqb_refl.
Qed.

(** ** Bits of the bitmap *)

Lemma bitmap_bit_replicate n i : bitmap_bit (replicate n 0) i = false.
Proof.
  unfold bitmap_bit. destruct (_ !! _) as [b|] eqn:E; [|done].
  apply lookup_replicate in E as [-> _]. apply Z.testbit_0_l.
Qed.

Lemma testbit_pow2 k n : 0 <= k -> Z.testbit (Z.shiftl 1 k) n = (k =? n).
Proof.
  intros Hk. rewrite Z.shiftl_1_l.
  destruct (Z.neg_nonneg_cases n) as [Hn|Hn].
  - rewrite Z.testbit_neg_r by done. symmetry. apply Z.eqb_neq. lia.
  - by apply Z.pow2_bits_eqb.
Qed.

Lemma div_mod_8_inj a b : 0 <= a -> 0 <= b -> a / 8 = b / 8 -> a mod 8 = b mod 8 -> a = b.
Proof.
  intros Ha Hb Hd Hm. rewrite (Z.div_mod a 8), (Z.div_mod b 8) by lia. by rewrite Hd, Hm.
Qed.

Lemma py_or_assign_bit (bm : bytes) idx :
  0 <= idx < 8 * Z.of_nat (length bm) ->
  exists bm', py_or_assign bm (idx / 8) (Z.shiftl 1 (idx mod 8)) = Ok bm' /\
    length bm' = length bm /\
    forall i, 0 <= i -> bitmap_bit bm' i = bitmap_bit bm i || (i =? idx).
Proof.
  intros Hidx.
  assert (Hq : 0 <= idx / 8 < Z.of_nat (length bm)).
  { split; [apply Z.div_pos; lia|]. apply Z.div_lt_upper_bound; lia. }
  set (j := Z.to_nat (idx / 8)).
  assert (Hj : (j < length bm)%nat) by (unfold j; lia).
  destruct (lookup_lt_is_Some_2 bm j Hj) as [old Hold].
  assert (Hn : py_norm (Z.of_nat (length bm)) (idx / 8) = Some j).
  { unfold py_norm. destruct (Z.ltb_spec (idx / 8) 0); [lia|].
    destruct (Z.leb_spec 0 (idx / 8)); [|lia].
    destruct (Z.ltb_spec (idx / 8) (Z.of_nat (length bm))); [done|lia]. }
  unfold py_or_assign. rewrite Hn. cbv beta iota. rewrite Hold.
  eexists. split; [reflexivity|]. split; [apply length_insert|].
  intros i Hi. unfold bitmap_bit.
  assert (Hmod : 0 <= idx mod 8) by (apply Z.mod_pos_bound; lia).
  destruct (decide (Z.to_nat (i / 8) = j)) as [Heq|Hne].
  - rewrite Heq, list_lookup_insert_eq by done. rewrite Hold.
    rewrite Z.lor_spec, testbit_pow2 by done. f_equal.
    assert (Hd : i / 8 = idx / 8).
    { assert (0 <= i / 8) by (apply Z.div_pos; lia). unfold j in Heq. lia. }
    destruct (Z.eqb_spec (idx mod 8) (i mod 8)) as [Hm|Hm];
      destruct (Z.eqb_spec i idx) as [Hi'|Hi']; try done.
    + exfalso. apply Hi'. apply div_mod_8_inj; lia.
    + subst. lia.
  - rewrite list_lookup_insert_ne by (intros E; apply Hne; by rewrite E).
    destruct (Z.eqb_spec i idx) as [->|_]; [done|]. by rewrite orb_false_r.
Qed.

Lemma set_bits_spec (idxs : list Z) (bm : bytes) :
  Forall (fun i => 0 <= i < 8 * Z.of_nat (length bm)) idxs ->
  exists bm', set_bits bm idxs = Ok bm' /\ length bm' = length bm /\
    forall i, 0 <= i -> bitmap_bit bm' i = bitmap_bit bm i || existsb (Z.eqb i) idxs.
Proof.
  revert bm. induction idxs as [|idx idxs IH]; intros bm Hall.
  - exists bm. split; [done|]. split; [done|]. intros i _. simpl. by rewrite orb_false_r.
  - inversion Hall as [|? ? Hidx Hrest]; subst.
    destruct (py_or_assign_bit bm idx Hidx) as (bm1 & E1 & L1 & B1).
    rewrite <- L1 in Hrest. destruct (IH bm1 Hrest) as (bm2 & E2 & L2 & B2).
    exists bm2. simpl. rewrite E1, E2. split; [done|]. split; [lia|].
    intros i Hi. rewrite B2, B1 by done. simpl. by rewrite orb_assoc.
Qed.

(** Everything [publish] computes: the bitmap, its length, its bits and the
    row it writes back. *)
Lemma publish_bitmap (d : db) (l : string) :
  revocations_consistent d l ->
  exists bm,
    publish d l = (update_bitmap d l bm,
                   Ok {| sd_id := l; sd_encoding := "bitset"; sd_data := hex bm |}) /\
    Z.of_nat (length bm) = (coalesce (max_index (credentials d) l) 0 + 1 + 7) / 8 /\
    (forall i, 0 <= i -> bitmap_bit bm i = true <-> In (l, i) (revocations d)).
Proof.
  intros [Hrev Hnonneg].
  set (m := coalesce (max_index (credentials d) l) 0).
  assert (Hm : 0 <= m).
  { unfold m. destruct (max_index (credentials d) l) as [m'|] eqn:E; simpl; [|lia].
    destruct (max_index_attained _ _ _ E) as (r & Hin & Hl & <-). by apply Hnonneg. }
  set (bl := (m + 1 + 7) / 8).
  assert (Hbl : 0 <= bl) by (apply Z.div_pos; lia).
  assert (Hbound : m < 8 * bl).
  { unfold bl. pose proof (Z.div_mod (m + 1 + 7) 8) as Hdm.
    pose proof (Z.mod_pos_bound (m + 1 + 7) 8) as Hb. lia. }
  assert (Hall : Forall (fun i => 0 <= i < 8 * Z.of_nat (length (replicate (Z.to_nat bl) 0)))
                   (revoked_indices d l)).
  { apply List.Forall_forall. intros i Hi. apply revoked_indices_spec in Hi.
    destruct (Hrev i Hi) as (r & Hin & Hl & <-).
    rewrite length_replicate, Z2Nat.id by done.
    destruct (max_index_some _ _ _ Hin Hl) as [m' Em].
    pose proof (max_index_upper _ _ _ Em r Hin Hl).
    assert (m = m') by (unfold m; by rewrite Em).
    pose proof (Hnonneg r Hin Hl). lia. }
  destruct (set_bits_spec _ _ Hall) as (bm & Eb & Lb & Bb).
  exists bm. split; [|split].
  - unfold publish. fold m. fold bl.
    destruct (Z.ltb_spec bl 0); [lia|]. by rewrite Eb.
  - rewrite Lb, length_replicate, Z2Nat.id by done. reflexivity.
  - intros i Hi. rewrite Bb, bitmap_bit_replicate by done. simpl.
    rewrite existsb_exists, <- revoked_indices_spec. split.
    + intros (j & Hj & Hij). apply Z.eqb_eq in Hij. by subst.
    + intros Hin. exists i. split; [done|]. apply Z.eqb_refl.
Qed.

Lemma update_bitmap_row (d : db) l bm :
  statuslists (update_bitmap d l bm) !! l = (fun '(iss, _) => (iss, bm)) <$> statuslists d !! l.
Proof.
  unfold update_bitmap. destruct (statuslists d !! l) as [[iss old]|] eqn:E; simpl.
  - apply lookup_insert_eq.
  - by rewrite E.
Qed.

Lemma land_pow2_eqb b k :
  0 <= k -> negb (Z.land b (Z.shiftl 1 k) =? 0) = Z.testbit b k.
Proof.
  intros Hk. destruct (Z.testbit b k) eqn:Eb.
  - destruct (Z.eqb_spec (Z.land b (Z.shiftl 1 k)) 0) as [E|E]; [|done].
    exfalso. assert (Ht : Z.testbit (Z.land b (Z.shiftl 1 k)) k = true).
    { rewrite Z.land_spec, testbit_pow2, Eb by done. simpl. apply Z.eqb_refl. }
    rewrite E, Z.testbit_0_l in Ht. discriminate.
  - assert (E : Z.land b (Z.shiftl 1 k) = 0).
    { apply Z.bits_inj'. intros n Hn. rewrite Z.land_spec, testbit_pow2, Z.testbit_0_l by done.
      destruct (Z.eqb_spec k n) as [<-|_]; [by rewrite Eb|]. by rewrite andb_false_r. }
    by rewrite E.
Qed.

(** [is_revoked] reads bit [i] of the stored bitmap. *)
Lemma is_revoked_bit (d : db) l iss bm i :
  statuslists d !! l = Some (iss, bm) -> 0 <= i -> is_revoked d l i = Ok (bitmap_bit bm i).
Proof.
  intros Hl Hi. unfold is_revoked, bitmap_bit. rewrite Hl.
  assert (Hq : 0 <= i / 8) by (apply Z.div_pos; lia).
  destruct (Z.leb_spec (Z.of_nat (length bm)) (i / 8)) as [Hge|Hlt].
  - rewrite lookup_ge_None_2 by lia. done.
  - unfold py_get, py_norm.
    destruct (Z.ltb_spec (i / 8) 0); [lia|].
    destruct (Z.leb_spec 0 (i / 8)); [|lia].
    destruct (Z.ltb_spec (i / 8) (Z.of_nat (length bm))); [|lia]. simpl.
    destruct (lookup_lt_is_Some_2 bm (Z.to_nat (i / 8))) as [b Hb]; [lia|].
    rewrite Hb. f_equal. apply land_pow2_eqb. apply Z.mod_pos_bound. lia.
Qed.

(** ** C10: revoking an unknown credential
    When no row of [credentials] has id [cid], [revoke] raises
    [HTTPException(404, "credential not found")] and the tables, in
    particular [revocations], are left as they were. *)
Theorem revoke_unknown_credential (d : db) (cid : string) :
  (forall r, In r (credentials d) -> c_id r <> cid) ->
  revoke d cid = (d, Some (HTTPException 404 "credential not found")) /\
  revocations (revoke d cid).1 = revocations d.
Proof.
  intros H. unfold revoke. rewrite find_credential_none by done. done.
Qed.

Lemma revoke_unknown_credential_witness :
  (forall r, In r (credentials db_one) -> c_id r <> "cred:did:key:zIssuer:7") /\
  revoke db_one "cred:did:key:zIssuer:7" =
    (db_one, Some (HTTPException 404 "credential not found")) /\
  revocations (revoke db_one "cred:did:key:zIssuer:7").1 = revocations db_one.
Proof.
  assert (H : forall r, In r (credentials db_one) -> c_id r <> "cred:did:key:zIssuer:7").
  { intros r [<-|[]]. simpl. discriminate. }
  split; [exact H|]. apply revoke_unknown_credential. exact H.
Defined.

(** ** C1: allocation after a credential at index 0
    With one credential at index 0 in the issuer's list, the maximum index
    is 0, so the specification allocates 1; [allocate] returns 0 again,
    because [(row[0] or -1)] turns the maximum 0 into -1. *)
Theorem allocate_repeats_index_zero :
  max_index (credentials db_one) list_demo = Some 0 /\
  spec_allocate_index db_one list_demo = 1 /\
  allocate db_one issuer_demo = (db_one, (list_demo, 0)).
Proof. split; [|split]; reflexivity. Qed.

(** ** C2: [revoke] does not set the stored bit
    A credential at index 0 of a list whose bitmap was published before the
    revocation still reads as not revoked right after [revoke]. *)
Lemma revoke_not_visible_counterexample :
  find_credential (credentials db_one) "cred:did:key:zIssuer:0" = Some cred_demo /\
  is_revoked (revoke db_one "cred:did:key:zIssuer:0").1 list_demo 0 = Ok false.
Proof. split; reflexivity. Qed.

Lemma revoke_statuslists (d : db) cid : statuslists (revoke d cid).1 = statuslists d.
Proof.
  unfold revoke. destruct (find_credential (credentials d) cid); [|done].
  destruct (existsb _ _); done.
Qed.

(** ** C2 (as the code does it): [revoke] only records the revocation
    [revoke] leaves [statuslists] as it was, so [is_revoked] answers after
    [revoke] exactly as before it. The revocation is recorded in
    [revocations], and a later [publish] of the credential's list (whose
    row exists) sets the bit, after which [is_revoked] returns [true]. *)
Theorem revoke_then_publish (d : db) (cid : string) :
  statuslists (revoke d cid).1 = statuslists d /\
  (forall l i, is_revoked (revoke d cid).1 l i = is_revoked d l i) /\
  (forall r, find_credential (credentials d) cid = Some r ->
     revocations_consistent d (c_list_id r) ->
     is_Some (statuslists d !! c_list_id r) ->
     In (c_list_id r, c_index r) (revocations (revoke d cid).1) /\
     is_revoked (publish (revoke d cid).1 (c_list_id r)).1 (c_list_id r) (c_index r) = Ok true).
Proof.
  split; [apply revoke_statuslists|]. split.
  { intros l i. unfold is_revoked. by rewrite revoke_statuslists. }
  intros r Hf [Hrev Hnn] [[iss old] Hrow].
  pose proof (find_credential_in _ _ _ Hf) as Hin.
  assert (Hcred : credentials (revoke d cid).1 = credentials d).
  { unfold revoke. rewrite Hf. destruct (existsb _ _); done. }
  assert (Hnew : In (c_list_id r, c_index r) (revocations (revoke d cid).1) /\
                 forall e, In e (revocations (revoke d cid).1) ->
                           In e (revocations d) \/ e = (c_list_id r, c_index r)).
  { unfold revoke. rewrite Hf.
    destruct (existsb _ _) eqn:Ex; simpl.
    - split; [|by left].
      apply existsb_exists in Ex as [[l' i'] [Hin' He]]. simpl in He.
      apply andb_true_iff in He as [H1 H2].
      apply String.eqb_eq in H1. apply Z.eqb_eq in H2. by subst.
    - split; [apply in_or_app; right; by left|].
      intros e He. apply in_app_or in He as [He|[<-|[]]]; [by left|by right]. }
  destruct Hnew as [Hnew Hsub]. split; [done|].
  assert (Hcons : revocations_consistent (revoke d cid).1 (c_list_id r)).
  { unfold revocations_consistent. rewrite Hcred. split; [|done].
    intros i Hi. destruct (Hsub _ Hi) as [Hi'|Heq]; [by apply Hrev|].
    injection Heq as ->. eauto. }
  destruct (publish_bitmap _ _ Hcons) as (bm & Ep & _ & Bits).
  rewrite Ep. simpl.
  assert (Hrow' : statuslists (update_bitmap (revoke d cid).1 (c_list_id r) bm) !! c_list_id r
                  = Some (iss, bm)).
  { rewrite update_bitmap_row, revoke_statuslists, Hrow. done. }
  assert (Hi0 : 0 <= c_index r) by (by apply Hnn).
  rewrite (is_revoked_bit _ _ _ _ _ Hrow' Hi0). f_equal. by apply Bits.
Qed.

(** ** C8 (as the code does it): [publish]
    When every revoked index of [l] is the non-negative index of a
    credential of [l], [publish] returns the lower-case hex of a bitmap of
    [ceil((m + 1) / 8)] bytes, where [m] is the largest credential index of
    [l], or 0 when [l] has none; bit [i] is set exactly when [(l, i)] is in
    [revocations]; and the bitmap is written to the [statuslists] row of [l]
    when that row exists. *)
Theorem publish_spec (d : db) (l : string) :
  revocations_consistent d l ->
  exists bm,
    publish d l = (update_bitmap d l bm,
                   Ok {| sd_id := l; sd_encoding := "bitset"; sd_data := hex bm |}) /\
    Z.of_nat (length bm) = (coalesce (max_index (credentials d) l) 0 + 1 + 7) / 8 /\
    (forall i, 0 <= i -> bitmap_bit bm i = true <-> In (l, i) (revocations d)) /\
    statuslists (update_bitmap d l bm) !! l = (fun '(iss, _) => (iss, bm)) <$> statuslists d !! l.
Proof.
  intros Hc. destruct (publish_bitmap d l Hc) as (bm & E & L & B).
  exists bm. split; [done|]. split; [done|]. split; [done|]. apply update_bitmap_row.
Qed.

(** ** C8: an empty list publishes one zero byte, not an empty bitmap
    With no credential in the list, [COALESCE(MAX(...), 0)] gives 0, so the
    size is 1 and the bitmap is one byte. *)
Lemma publish_empty_list_counterexample :
  max_index (credentials db_empty) list_demo = None /\
  (publish db_empty list_demo).2 =
    Ok {| sd_id := list_demo; sd_encoding := "bitset"; sd_data := "00" |}.
Proof. split; reflexivity. Qed.

End StatusProofs.

Module StatusWitnesses.
Import Py Store Demo StatusProofs.

Lemma db_rev_consistent : revocations_consistent db_rev list_demo.
Proof.
  split.
  - intros i [Hi|[]]. injection Hi as <-. exists cred_demo. split; [by left|done].
  - intros r [<-|[]] _. simpl. lia.
Qed.

Lemma db_one_consistent : revocations_consistent db_one list_demo.
Proof.
  split.
  - intros i [].
  - intros r [<-|[]] _. simpl. lia.
Qed.

Lemma publish_spec_witness :
  revocations_consistent db_rev list_demo /\
  exists bm,
    publish db_rev list_demo = (update_bitmap db_rev list_demo bm,
                   Ok {| sd_id := list_demo; sd_encoding := "bitset"; sd_data := hex bm |}) /\
    Z.of_nat (length bm) = (coalesce (max_index (credentials db_rev) list_demo) 0 + 1 + 7) / 8 /\
    (forall i, 0 <= i -> bitmap_bit bm i = true <-> In (list_demo, i) (revocations db_rev)) /\
    statuslists (update_bitmap db_rev list_demo bm) !! list_demo =
      (fun '(iss, _) => (iss, bm)) <$> statuslists db_rev !! list_demo.
Proof.
  split; [exact db_rev_consistent|]. apply publish_spec. exact db_rev_consistent.
Defined.

Lemma revoke_then_publish_witness :
  find_credential (credentials db_one) "cred:did:key:zIssuer:0" = Some cred_demo /\
  is_Some (statuslists db_one !! list_demo) /\
  In (list_demo, 0) (revocations (revoke db_one "cred:did:key:zIssuer:0").1) /\
  is_revoked (publish (revoke db_one "cred:did:key:zIssuer:0").1 list_demo).1 list_demo 0 = Ok true.
Proof.
  assert (Hf : find_credential (credentials db_one) "cred:did:key:zIssuer:0" = Some cred_demo)
    by reflexivity.
  assert (Hs : is_Some (statuslists db_one !! list_demo)) by (eexists; reflexivity).
  split; [exact Hf|]. split; [exact Hs|].
  destruct (revoke_then_publish db_one "cred:did:key:zIssuer:0") as [_ [_ H]].
  exact (H cred_demo Hf db_one_consistent Hs).
Defined.

End StatusWitnesses.

Module DidProofs.
Import Py Did Demo.

Lemma b64_char_not_colon n : b64_char n <> ":"%char.
Proof.
  unfold b64_char.
  destruct (nth_in_or_default (Z.to_nat n) b64_alphabet "A"%char) as [Hin| E0]; [|rewrite E0; discriminate].
  intros E. rewrite E in Hin.
  assert (Hno : existsb (Ascii.eqb ":"%char) b64_alphabet = false) by reflexivity.
  apply Bool.not_true_iff_false in Hno. apply Hno.
  apply existsb_exists. exists ":"%char. split; [exact Hin|]. apply Ascii.eqb_refl.
Qed.

Lemma b64_groups_no_colon (bs : bytes) : List.Forall (fun c => c <> ":"%char) (b64_groups bs).
Proof.
  remember (length bs) as n eqn:Hn. revert bs Hn.
  induction n as [n IH] using lt_wf_ind.
  intros [|b0 [|b1 [|b2 rest]]] Hn; simpl;
    repeat constructor; try apply b64_char_not_colon; try discriminate.
  apply (IH (length rest)); [simpl in Hn; lia|done].
Qed.

Lemma drop_char_forall (P : ascii -> Prop) c l :
  List.Forall P l -> List.Forall P (drop_char c l).
Proof.
  induction l as [|x l IH]; intros H; simpl; [done|].
  inversion H; subst. destruct (Ascii.eqb x c); [by apply IH|done].
Qed.

Lemma substring_forall (P : ascii -> Prop) n s :
  List.Forall P (list_ascii_of_string s) -> List.Forall P (list_ascii_of_string (substring 0 n s)).
Proof.
  revert n. induction s as [|a s IH]; intros [|n] H; simpl; try constructor.
  - by inversion H.
  - apply IH. by inversion H.
Qed.

Lemma fingerprint_no_colon k :
  List.Forall (fun c => c <> ":"%char) (list_ascii_of_string (fingerprint k)).
Proof.
  unfold fingerprint, rstrip, urlsafe_b64encode.
  rewrite list_ascii_of_string_of_list_ascii, list_ascii_of_string_of_list_ascii.
  apply List.Forall_rev, drop_char_forall, List.Forall_rev, b64_groups_no_colon.
Qed.

Lemma split_chars_no_sep sep l :
  List.Forall (fun c => c <> sep) l -> split_chars sep l = [l].
Proof.
  induction l as [|c l IH]; intros H; [done|]. inversion H as [|? ? Hc Hl]; subst.
  simpl. rewrite IH by done.
  destruct (Ascii.eqb_spec c sep); [done|reflexivity].
Qed.

Lemma list_ascii_of_string_app s t :
  list_ascii_of_string (s +:+ t) = list_ascii_of_string s ++ list_ascii_of_string t.
Proof. induction s as [|a s IH]; simpl; [done|]. by rewrite IH. Qed.

Lemma substring_take_take a b s : (a <= b)%nat -> substring 0 a (substring 0 b s) = substring 0 a s.
Proof.
  revert a b. induction s as [|c s IH]; intros [|a] [|b] Hab; simpl; try done; try lia.
  f_equal. apply IH. lia.
Qed.

(** ** C9 (as the code does it): the DID and its service endpoint
    The DID is ["did:key:z"] followed by the first 46 characters of the
    fingerprint (base64url, no padding, of X || Y of the signing key). The
    endpoint is ["inbox://"] followed by the first 8 characters of the last
    [':']-separated part of the DID, which starts with the ["z"]: it is
    ["inbox://z"] followed by the first 7 characters of the fingerprint. *)
Theorem generate_did_key_endpoint (signing agreement : ec_key) :
  let '(did, doc, _) := generate_did_key signing agreement in
  did = "did:key:z" +:+ str_take 46 (fingerprint signing) /\
  doc_did doc = did /\
  service_endpoint doc = "inbox://z" +:+ str_take 7 (fingerprint signing).
Proof.
  unfold generate_did_key. split; [reflexivity|]. split; [reflexivity|]. cbn [service_endpoint].
  enough (H : str_take 8 (last_item (split ":"%char (did_from_jwk_public signing))) =
              "z" +:+ str_take 7 (fingerprint signing)) by (rewrite H; reflexivity).
  unfold last_item, split, did_from_jwk_public.
  rewrite list_ascii_of_string_app.
  set (t := str_take 46 (fingerprint signing)).
  assert (Ht : List.Forall (fun c => c <> ":"%char) (list_ascii_of_string t))
    by (apply substring_forall, fingerprint_no_colon).
  simpl. rewrite split_chars_no_sep by done. simpl.
  rewrite string_of_list_ascii_of_string.
  unfold t, str_take. simpl. f_equal. apply substring_take_take. lia.
Qed.

(** ** C9: the endpoint is not built from the first 8 characters of the
    fingerprint
    For a signing key whose coordinates are zero bytes the fingerprint is
    ["AAAA..."]; the code's endpoint is ["inbox://zAAAAAAA"], while the
    first 8 characters of the fingerprint give ["inbox://AAAAAAAA"]. *)
Lemma endpoint_fingerprint_counterexample :
  let '(did, doc, _) := generate_did_key key_zero key_zero in
  service_endpoint doc = "inbox://zAAAAAAA" /\
  spec_service_endpoint key_zero = "inbox://AAAAAAAA" /\
  service_endpoint doc <> spec_service_endpoint key_zero.
Proof. vm_compute. split; [reflexivity|]. split; [reflexivity|]. discriminate. Qed.

End DidProofs.

Module MerkleProofs.
Import Py Json Utils Demo.

Lemma map_raise_some {A B} (f : A -> option B) (dflt : B) (xs : list A) :
  List.Forall (fun x => is_Some (f x)) xs ->
  map_raise f xs = Some (List.map (fun x => default dflt (f x)) xs).
Proof.
  induction xs as [|x xs IH]; intros H; [done|]. inversion H as [|? ? [y Hy] Hxs]; subst.
  simpl. rewrite Hy, IH by done. done.
Qed.

Lemma map_raise_none {A B} (f : A -> option B) (xs : list A) :
  ~ List.Forall (fun x => is_Some (f x)) xs -> map_raise f xs = None.
Proof.
  induction xs as [|x xs IH]; intros H; [exfalso; by apply H|]. simpl.
  destruct (f x) as [y|] eqn:Ex; [|done].
  rewrite IH; [done|]. intros Hall. apply H. constructor; [by exists y|done].
Qed.

(** The value [attrs[key]], for a key of [attrs]. *)
Definition attr (attrs : list (string * json)) (key : string) : json :=
  default JNull (dict_get attrs key).

(** ** C5 (as the code does it): [merkle_commit]
    When every key of [order] is a key of [attrs], [merkle_commit] returns
    [order] unchanged, one placeholder path per key, and the root
    [b64url(SHA-256(L[0] || L[1] || ...))] with
    [L[i] = SHA-256(order[i] + ":" + json.dumps(attrs[order[i]], sort_keys=True))]:
    keys sorted, items separated by [", "] and keys from values by [": "]
    (Python's default separators), non-ASCII characters escaped. A key of
    [order] missing from [attrs] raises [KeyError]. *)
Theorem merkle_commit_spec (attrs : list (string * json)) (order : list string) :
  (List.Forall (fun k => is_Some (dict_get attrs k)) order ->
   merkle_commit attrs order =
     Some {| m_order := order;
             m_root := b64url (sha256 (List.concat
                         (List.map (fun k => sha256 (encode (k +:+ ":" +:+
                                               dumps ", " ": " (attr attrs k)))) order)));
             m_paths := List.map (fun _ => stub_path) order |}) /\
  (~ List.Forall (fun k => is_Some (dict_get attrs k)) order ->
   merkle_commit attrs order = None).
Proof.
  split.
  - intros H. unfold merkle_commit.
    rewrite (map_raise_some _ [] order).
    2:{ eapply List.Forall_impl; [|exact H]. intros k [v Hv]. unfold leaf. rewrite Hv. by eexists. }
    rewrite List.map_map. f_equal. f_equal.
    f_equal. f_equal. f_equal. apply List.map_ext_in. intros k Hk.
    apply List.Forall_forall with (x := k) in H; [|done]. destruct H as [v Hv].
    unfold leaf, attr. by rewrite Hv.
  - intros H. unfold merkle_commit. rewrite map_raise_none; [done|].
    intros Hall. apply H. eapply List.Forall_impl; [|exact Hall].
    intros k [y Hy]. unfold leaf in Hy. destruct (dict_get attrs k); [by eexists|discriminate].
Qed.

Lemma merkle_commit_spec_witness :
  List.Forall (fun k => is_Some (dict_get attrs_nested k)) ["k"] /\
  merkle_commit attrs_nested ["k"] =
     Some {| m_order := ["k"];
             m_root := b64url (sha256 (List.concat
                         (List.map (fun k => sha256 (encode (k +:+ ":" +:+
                                               dumps ", " ": " (attr attrs_nested k)))) ["k"])));
             m_paths := List.map (fun _ => stub_path) ["k"] |}.
Proof.
  assert (H : List.Forall (fun k => is_Some (dict_get attrs_nested k)) ["k"]).
  { constructor; [eexists; reflexivity|constructor]. }
  split; [exact H|]. apply (proj1 (merkle_commit_spec attrs_nested ["k"])). exact H.
Defined.

(** ** C5: the leaves are not hashed over whitespace-free JSON
    For the attribute [k = {"a": 1, "b": 2}], [json.dumps(..., sort_keys=True)]
    writes [", "] and [": "], so the serialisation differs from the
    whitespace-free one and the root differs from the specified root. *)
Lemma merkle_root_whitespace_counterexample :
  dumps_sorted (attr attrs_nested "k") <> canonical_json (attr attrs_nested "k") /\
  option_map m_root (merkle_commit attrs_nested ["k"]) <> Some (spec_root attrs_nested ["k"]).
Proof. vm_compute. split; intros H; discriminate H. Qed.

End MerkleProofs.

Module PresentationProofs.
Import Py Json Utils Store Challenge Presentation Demo.

(** ** C6: build then verify
    When the verifier's agreement key decrypts what was encrypted to it,
    verifying the box [build] produced, before the challenge's [exp] has
    passed and with the credential not marked revoked in the stored bitmap,
    succeeds with message ["verified OK"] and discloses exactly
    [{k: attrs[k] for k in reveal_fields if k in attrs}]; the challenge
    record is consumed. *)
Theorem build_verify_roundtrip (box : Type) (seal : string -> payload -> option box)
    (unseal : box -> payload) :
  (forall did p b, seal did p = Some b -> unseal b = p) ->
  forall (r : redis) (d : db) (now now' : Z) (rnd : bytes) (verifier_did : string)
         (cred : credential) (reveal_fields : list string) (r1 : redis) (b : box),
  build box seal r now rnd verifier_did cred reveal_fields = (r1, Ok b) ->
  now' <= now + 300 ->
  is_revoked d (cr_list_id cred) (cr_index cred) = Ok false ->
  verify_and_extract box unseal r1 d now' b =
    (delete (challenge_key (b64url rnd)) r1,
     Ok {| vr_ok := true; vr_message := "verified OK";
           vr_disclosed := reveal (cr_attrs cred) reveal_fields |}).
Proof.
  intros Hseal r d now now' rnd verifier_did cred reveal_fields r1 b Hb Hfresh Hrev.
  unfold build, issue in Hb. simpl in Hb.
  match type of Hb with
  | (match seal verifier_did ?p with _ => _ end) = _ => set (pl := p) in Hb
  end.
  destruct (seal verifier_did pl) as [b'|] eqn:Es; [|discriminate].
  injection Hb as <- <-.
  apply Hseal in Es.
  unfold verify_and_extract. rewrite Es. unfold pl. simpl.
  unfold validate. rewrite lookup_insert_eq. simpl.
  rewrite String.eqb_refl. simpl.
  assert (Hn : (now + 300 <? now') = false) by (apply Z.ltb_ge; lia).
  rewrite Hn. simpl.
  rewrite Hrev. reflexivity.
Qed.

Lemma build_verify_roundtrip_witness :
  exists r1 b,
    build payload (fun _ p => Some p) ∅ 1000 rnd_demo "did:key:zVerifier" cred_alice ["name"]
      = (r1, Ok b) /\
    1100 <= 1000 + 300 /\
    is_revoked db_empty (cr_list_id cred_alice) (cr_index cred_alice) = Ok false /\
    reveal (cr_attrs cred_alice) ["name"] = [("name", JStr "Alice")] /\
    verify_and_extract payload (fun p => p) r1 db_empty 1100 b =
      (delete (challenge_key (b64url rnd_demo)) r1,
       Ok {| vr_ok := true; vr_message := "verified OK";
             vr_disclosed := reveal (cr_attrs cred_alice) ["name"] |}).
Proof.
  eexists. eexists.
  assert (Hb : build payload (fun _ p => Some p) ∅ 1000 rnd_demo "did:key:zVerifier" cred_alice
                 ["name"] = (_, Ok _)) by reflexivity.
  split; [exact Hb|]. split; [lia|]. split; [reflexivity|]. split; [reflexivity|].
  apply (build_verify_roundtrip payload (fun _ p => Some p) (fun p => p)
           (fun _ _ _ H => eq_sym (Some_inj _ _ H))
           ∅ db_empty 1000 1100 rnd_demo "did:key:zVerifier" cred_alice ["name"] _ _ Hb);
    [lia|reflexivity].
Defined.

End PresentationProofs.

(** * Further properties of the status list and storage code *)

Module StatusListProofs.
Import Py Store Demo.

Lemma update_bitmap_tables (d : db) l bm :
  credentials (update_bitmap d l bm) = credentials d /\
  revocations (update_bitmap d l bm) = revocations d.
Proof. unfold update_bitmap. by destruct (statuslists d !! l) as [[? ?]|]. Qed.

Lemma update_bitmap_twice (d : db) l bm :
  update_bitmap (update_bitmap d l bm) l bm = update_bitmap d l bm.
Proof.
  unfold update_bitmap. destruct (statuslists d !! l) as [[iss old]|] eqn:E; [|by rewrite E].
  simpl. rewrite lookup_insert_eq. unfold set_statuslists. simpl. by rewrite insert_insert_eq.
Qed.

(** [get_or_create_list] creates the row [(issuer_did, b"")] of
    ["status:" + issuer_did] when it is missing and otherwise leaves the
    tables, and the stored bitmap, as they are; a second call changes
    nothing. *)
Theorem get_or_create_list_spec (d : db) (issuer_did : string) :
  let '(d', l) := get_or_create_list d issuer_did in
  l = status_list_id issuer_did /\
  credentials d' = credentials d /\ revocations d' = revocations d /\
  statuslists d' !! l = Some (default (issuer_did, []) (statuslists d !! l)) /\
  (forall k, k <> l -> statuslists d' !! k = statuslists d !! k) /\
  get_or_create_list d' issuer_did = (d', l).
Proof.
  unfold get_or_create_list.
  destruct (statuslists d !! status_list_id issuer_did) as [v|] eqn:E.
  - rewrite E. repeat split; done.
  - simpl. rewrite lookup_insert_eq. repeat split; try done; [by rewrite E|].
    intros k Hk. by rewrite lookup_insert_ne by congruence.
Qed.

Lemma allocate_eq (d : db) (issuer_did : string) :
  allocate d issuer_did =
    ((get_or_create_list d issuer_did).1,
     (status_list_id issuer_did,
      match max_index (credentials d) (status_list_id issuer_did) with
      | None => 0
      | Some m => if m =? 0 then 0 else m + 1
      end)) /\
  credentials (allocate d issuer_did).1 = credentials d /\
  revocations (allocate d issuer_did).1 = revocations d.
Proof.
  assert (Hc : credentials (get_or_create_list d issuer_did).1 = credentials d /\
               revocations (get_or_create_list d issuer_did).1 = revocations d).
  { unfold get_or_create_list. by destruct (statuslists d !! _). }
  destruct Hc as [Hc Hr].
  assert (E : allocate d issuer_did =
    ((get_or_create_list d issuer_did).1,
     (status_list_id issuer_did,
      match max_index (credentials d) (status_list_id issuer_did) with
      | None => 0
      | Some m => if m =? 0 then 0 else m + 1
      end))).
  { unfold allocate.
    replace (get_or_create_list d issuer_did)
      with ((get_or_create_list d issuer_did).1, status_list_id issuer_did)
      by (unfold get_or_create_list; by destruct (statuslists d !! _)).
    rewrite Hc. unfold coalesce, py_or.
    destruct (max_index (credentials d) _) as [m|]; [|done].
    by destruct (Z.eqb_spec m 0). }
  rewrite E. simpl. done.
Qed.

(** [allocate] hands out [MAX(index) + 1] for the issuer's list, except
    that a maximum of 0 (Python's falsy [0] in [row[0] or -1]) gives 0
    again, as does an empty list; it changes no table but [statuslists]. *)
Theorem allocate_index (d : db) (issuer_did : string) :
  allocate d issuer_did =
    ((get_or_create_list d issuer_did).1,
     (status_list_id issuer_did,
      match max_index (credentials d) (status_list_id issuer_did) with
      | None => 0
      | Some m => if m =? 0 then 0 else m + 1
      end)) /\
  credentials (allocate d issuer_did).1 = credentials d /\
  revocations (allocate d issuer_did).1 = revocations d.
Proof. exact (allocate_eq d issuer_did). Qed.

(** Revoking is idempotent: a second [revoke] of the same id changes
    nothing and reports what the first did; [revoke] never touches
    [credentials]. *)
Theorem revoke_idempotent (d : db) (cid : string) :
  revoke (revoke d cid).1 cid = revoke d cid /\
  credentials (revoke d cid).1 = credentials d.
Proof.
  unfold revoke. destruct (find_credential (credentials d) cid) as [r|] eqn:Ef.
  - destruct (existsb _ (revocations d)) eqn:Ex; simpl in *.
    + by rewrite Ef, Ex.
    + rewrite Ef.
      replace (existsb _ (revocations d ++ _)) with true; [done|].
      symmetry. apply existsb_exists. exists (c_list_id r, c_index r).
      split; [apply in_or_app; right; by left|]. simpl.
      by rewrite String.eqb_refl, Z.eqb_refl.
  - simpl. by rewrite Ef.
Qed.

(** [publish] is idempotent: publishing the same list again returns the
    same document and leaves the tables as the first call left them; it
    never changes [credentials] or [revocations]. *)
Theorem publish_idempotent (d : db) (l : string) :
  publish (publish d l).1 l = publish d l /\
  credentials (publish d l).1 = credentials d /\
  revocations (publish d l).1 = revocations d.
Proof.
  destruct (publish d l) as [d1 o] eqn:Ep. simpl. revert Ep.
  unfold publish at 1. destruct (_ <? 0) eqn:Eneg.
  { intros Ep. injection Ep as <- <-. split; [|done]. unfold publish. by rewrite Eneg. }
  destruct (set_bits _ _) as [bm|e] eqn:Eb; intros Ep; injection Ep as <- <-.
  2: { split; [|done]. unfold publish. by rewrite Eneg, Eb. }
  destruct (update_bitmap_tables d l bm) as [Hc Hr]. split; [|done].
  unfold publish. rewrite Hc.
  unfold revoked_indices at 1. rewrite Hr. fold (revoked_indices d l).
  by rewrite Eneg, Eb, update_bitmap_twice.
Qed.

(** [is_revoked] answers [False], without raising, for a list with no
    [statuslists] row and for a non-negative index past the end of the
    stored bitmap. *)
Theorem is_revoked_out_of_range (d : db) (l : string) (idx : Z) :
  (statuslists d !! l = None -> is_revoked d l idx = Ok false) /\
  (forall iss bm, statuslists d !! l = Some (iss, bm) ->
     (8 * Z.of_nat (length bm) <= idx) -> is_revoked d l idx = Ok false).
Proof.
  split.
  - intros H. unfold is_revoked. by rewrite H.
  - intros iss bm H Hge. unfold is_revoked. rewrite H.
    destruct (Z.leb_spec (Z.of_nat (length bm)) (idx / 8)) as [_|Hlt]; [done|].
    exfalso. assert (Z.of_nat (length bm) <= idx / 8) by (apply Z.div_le_lower_bound; lia). lia.
Qed.

Lemma is_revoked_out_of_range_witness :
  (statuslists db_empty !! list_demo = None /\ is_revoked db_empty list_demo 5 = Ok false) /\
  (statuslists db_rev !! list_demo = Some (issuer_demo, [0]) /\
   8 * Z.of_nat (length [0]) <= 9 /\ is_revoked db_rev list_demo 9 = Ok false).
Proof.
  pose proof (is_revoked_out_of_range db_empty list_demo 5) as [H1 _].
  pose proof (is_revoked_out_of_range db_rev list_demo 9) as [_ H2].
  split.
  - assert (E : statuslists db_empty !! list_demo = None) by reflexivity.
    split; [exact E|]. apply H1. exact E.
  - assert (E : statuslists db_rev !! list_demo = Some (issuer_demo, [0])) by reflexivity.
    split; [exact E|]. split; [simpl; lia|]. apply (H2 issuer_demo [0] E). simpl. lia.
Defined.

(** A negative index is not rejected: [bitmap[idx // 8]] counts from the
    end of the bitmap, so [is_revoked] reads bit [idx + 8 * len(bitmap)],
    and raises [IndexError] below [-8 * len(bitmap)]. *)
Theorem is_revoked_negative_index (d : db) (l iss : string) (bm : bytes) (idx : Z) :
  statuslists d !! l = Some (iss, bm) -> idx < 0 ->
  is_revoked d l idx =
    if idx <? - 8 * Z.of_nat (length bm) then Raise IndexError
    else Ok (bitmap_bit bm (idx + 8 * Z.of_nat (length bm))).
Proof.
  intros Hl Hneg. unfold is_revoked. rewrite Hl.
  set (n := Z.of_nat (length bm)).
  assert (Hq : idx / 8 < 0) by (apply Z.div_lt_upper_bound; lia).
  destruct (Z.leb_spec n (idx / 8)) as [Hc|_]; [unfold n in *; lia|].
  unfold py_get, py_norm. fold n.
  destruct (Z.ltb_spec (idx / 8) 0) as [_|]; [|lia].
  assert (Hdiv : (idx + 8 * n) / 8 = idx / 8 + n).
  { rewrite Z.add_comm, Z.mul_comm, Z.div_add_l by lia. lia. }
  assert (Hmod : (idx + 8 * n) mod 8 = idx mod 8).
  { rewrite Z.add_comm, Z.mul_comm, Z.add_comm. apply Z.mod_add. lia. }
  destruct (Z.ltb_spec idx (- 8 * n)) as [Hlow|Hhigh].
  - destruct (Z.leb_spec 0 (idx / 8 + n)) as [Hnn|]; [|done].
    exfalso. assert (idx / 8 < - n) by (apply Z.div_lt_upper_bound; lia). lia.
  - assert (Hnn : 0 <= idx / 8 + n) by (rewrite <- Hdiv; apply Z.div_pos; lia).
    destruct (Z.leb_spec 0 (idx / 8 + n)); [|lia].
    destruct (Z.ltb_spec (idx / 8 + n) n); [|lia]. simpl.
    unfold bitmap_bit. rewrite Hdiv, Hmod.
    destruct (lookup_lt_is_Some_2 bm (Z.to_nat (idx / 8 + n))) as [b Hb]; [unfold n in *; lia|].
    rewrite Hb. f_equal. apply StatusProofs.land_pow2_eqb. apply Z.mod_pos_bound. lia.
Qed.

Lemma is_revoked_negative_index_witness :
  statuslists (set_statuslists db_empty {[ list_demo := (issuer_demo, [128]) ]}) !! list_demo
    = Some (issuer_demo, [128]) /\ -1 < 0 /\
  is_revoked (set_statuslists db_empty {[ list_demo := (issuer_demo, [128]) ]}) list_demo (-1)
    = Ok true.
Proof.
  assert (E : statuslists (set_statuslists db_empty {[ list_demo := (issuer_demo, [128]) ]})
                !! list_demo = Some (issuer_demo, [128])) by reflexivity.
  split; [exact E|]. split; [lia|].
  rewrite (is_revoked_negative_index _ list_demo issuer_demo [128] (-1) E); [reflexivity|lia].
Defined.

(** After [publish] of a list whose row exists, [is_revoked] answers for
    every non-negative index without raising, and answers [True] exactly
    for the indices recorded in [revocations]. *)
Theorem publish_then_is_revoked (d : db) (l iss : string) (old : bytes) :
  revocations_consistent d l -> statuslists d !! l = Some (iss, old) ->
  forall i, 0 <= i ->
  exists b, is_revoked (publish d l).1 l i = Ok b /\ (b = true <-> In (l, i) (revocations d)).
Proof.
  intros Hc Hrow i Hi.
  destruct (StatusProofs.publish_bitmap d l Hc) as (bm & Ep & _ & Bits).
  rewrite Ep. simpl.
  assert (Hrow' : statuslists (update_bitmap d l bm) !! l = Some (iss, bm)).
  { rewrite StatusProofs.update_bitmap_row, Hrow. done. }
  exists (bitmap_bit bm i). split; [by apply StatusProofs.is_revoked_bit with iss|].
  by apply Bits.
Qed.

Lemma publish_then_is_revoked_witness :
  revocations_consistent db_rev list_demo /\
  statuslists db_rev !! list_demo = Some (issuer_demo, [0]) /\
  exists b, is_revoked (publish db_rev list_demo).1 list_demo 0 = Ok b /\
            (b = true <-> In (list_demo, 0) (revocations db_rev)).
Proof.
  assert (E : statuslists db_rev !! list_demo = Some (issuer_demo, [0])) by reflexivity.
  split; [exact StatusWitnesses.db_rev_consistent|]. split; [exact E|].
  apply (publish_then_is_revoked db_rev list_demo issuer_demo [0]
           StatusWitnesses.db_rev_consistent E 0). lia.
Defined.

Lemma length_string_of_list_ascii (cs : list ascii) :
  String.length (string_of_list_ascii cs) = length cs.
Proof. induction cs as [|c cs IH]; simpl; congruence. Qed.

Lemma hex_chars (bs : bytes) :
  String.length (hex bs) = (2 * length bs)%nat /\
  List.Forall (fun c => In c (list_ascii_of_string "0123456789abcdef"))
    (list_ascii_of_string (hex bs)).
Proof.
  unfold hex. rewrite length_string_of_list_ascii, list_ascii_of_string_of_list_ascii.
  assert (Hd : forall n, In (hex_digit n) (list_ascii_of_string "0123456789abcdef")).
  { intros n. unfold hex_digit.
    destruct (Nat.lt_ge_cases (Z.to_nat n) 16) as [Hlt|Hge].
    - apply nth_In. exact Hlt.
    - rewrite nth_overflow by exact Hge. simpl. auto. }
  induction bs as [|b bs [IHl IHf]]; [split; [done|constructor]|].
  simpl. split; [simpl in IHl; lia|].
  constructor; [apply Hd|]. constructor; [apply Hd|]. exact IHf.
Qed.

(** The [data] of a published status list is the lower-case hex of the
    bitmap: two characters of [0-9a-f] per byte, so
    [2 * ceil((m + 1) / 8)] characters for a largest index [m] (0 for an
    empty list). *)
Theorem publish_data_hex (d : db) (l : string) :
  revocations_consistent d l ->
  exists doc, (publish d l).2 = Ok doc /\
    Z.of_nat (String.length (sd_data doc)) =
      2 * ((coalesce (max_index (credentials d) l) 0 + 1 + 7) / 8) /\
    List.Forall (fun c => In c (list_ascii_of_string "0123456789abcdef"))
      (list_ascii_of_string (sd_data doc)).
Proof.
  intros Hc. destruct (StatusProofs.publish_bitmap d l Hc) as (bm & Ep & Hlen & _).
  rewrite Ep. eexists. split; [reflexivity|]. simpl.
  destruct (hex_chars bm) as [Hl Hf]. split; [|exact Hf]. rewrite Hl. lia.
Qed.

Lemma publish_data_hex_witness :
  revocations_consistent db_rev list_demo /\
  exists doc, (publish db_rev list_demo).2 = Ok doc /\
    Z.of_nat (String.length (sd_data doc)) =
      2 * ((coalesce (max_index (credentials db_rev) list_demo) 0 + 1 + 7) / 8) /\
    List.Forall (fun c => In c (list_ascii_of_string "0123456789abcdef"))
      (list_ascii_of_string (sd_data doc)).
Proof.
  split; [exact StatusWitnesses.db_rev_consistent|].
  exact (publish_data_hex db_rev list_demo StatusWitnesses.db_rev_consistent).
Defined.

End StatusListProofs.

Module EncodingProofs.
Import Py Json Utils Did Demo.

Lemma b64_char_in n : In (b64_char n) b64_alphabet.
Proof.
  unfold b64_char.
  destruct (nth_in_or_default (Z.to_nat n) b64_alphabet "A"%char) as [Hin| E0]; [done|].
  rewrite E0. simpl. auto.
Qed.

Lemma b64_char_not_pad n : b64_char n <> "="%char.
Proof.
  intros E. pose proof (b64_char_in n) as Hin. rewrite E in Hin.
  assert (Hno : existsb (Ascii.eqb "="%char) b64_alphabet = false) by reflexivity.
  apply Bool.not_true_iff_false in Hno. apply Hno.
  apply existsb_exists. exists "="%char. split; [exact Hin|]. apply Ascii.eqb_refl.
Qed.

(** [urlsafe_b64encode] is a body of alphabet characters followed by the
    "=" padding. *)
Lemma b64_groups_shape (bs : bytes) :
  exists body k, b64_groups bs = body ++ List.repeat "="%char k /\
    List.Forall (fun c => In c b64_alphabet) body /\
    length body = ((4 * length bs + 2) / 3)%nat.
Proof.
  remember (length bs) as n eqn:Hn. revert bs Hn.
  induction n as [n IH] using lt_wf_ind.
  intros [|b0 [|b1 [|b2 rest]]] Hn; simpl in Hn; subst.
  - exists [], O. done.
  - exists [b64_char (Z.shiftr b0 2); b64_char (Z.shiftl (Z.land b0 3) 4)], 2%nat.
    split; [reflexivity|].
    split; [repeat (apply List.Forall_cons; [apply b64_char_in|]); apply List.Forall_nil|done].
  - exists [b64_char (Z.shiftr b0 2); b64_char (Z.lor (Z.shiftl (Z.land b0 3) 4) (Z.shiftr b1 4));
            b64_char (Z.shiftl (Z.land b1 15) 2)], 1%nat.
    split; [reflexivity|].
    split; [repeat (apply List.Forall_cons; [apply b64_char_in|]); apply List.Forall_nil|done].
  - destruct (IH (length rest) ltac:(lia) rest eq_refl) as (body & k & E & Hf & Hl).
    assert (Ha : ((4 * S (S (S (length rest))) + 2) / 3 = 4 + (4 * length rest + 2) / 3)%nat).
    { replace (4 * S (S (S (length rest))) + 2)%nat with ((4 * length rest + 2) + 4 * 3)%nat
        by lia.
      rewrite Nat.div_add by lia. lia. }
    rewrite Ha. simpl. rewrite E.
    exists (b64_char (Z.shiftr b0 2)
              :: b64_char (Z.lor (Z.shiftl (Z.land b0 3) 4) (Z.shiftr b1 4))
              :: b64_char (Z.lor (Z.shiftl (Z.land b1 15) 2) (Z.shiftr b2 6))
              :: b64_char (Z.land b2 63) :: body), k.
    split; [reflexivity|].
    split; [repeat (apply List.Forall_cons; [apply b64_char_in|]); exact Hf|].
    simpl. rewrite Hl. reflexivity.
Qed.

Lemma drop_char_repeat c k l : drop_char c (List.repeat c k ++ l) = drop_char c l.
Proof. induction k as [|k IH]; simpl; [done|]. by rewrite Ascii.eqb_refl. Qed.

Lemma drop_char_head c l :
  List.Forall (fun x => x <> c) l -> drop_char c l = l.
Proof.
  intros H. destruct l as [|x l]; [done|]. inversion H; subst. simpl.
  destruct (Ascii.eqb_spec x c); [done|reflexivity].
Qed.

Lemma rev_repeat {A} (x : A) k : rev (List.repeat x k) = List.repeat x k.
Proof.
  induction k as [|k IH]; [done|]. simpl. rewrite IH.
  change [x] with (List.repeat x 1). rewrite <- List.repeat_app.
  replace (k + 1)%nat with (S k) by lia. reflexivity.
Qed.

Lemma b64url_length_alphabet (data : bytes) :
  String.length (b64url data) = ((4 * length data + 2) / 3)%nat /\
  List.Forall (fun c => In c b64_alphabet) (list_ascii_of_string (b64url data)).
Proof.
  destruct (b64_groups_shape data) as (body & k & E & Hf & Hl).
  unfold b64url, rstrip, urlsafe_b64encode.
  rewrite list_ascii_of_string_of_list_ascii, E, rev_app_distr, rev_repeat, drop_char_repeat.
  rewrite drop_char_head.
  2: { apply List.Forall_rev. eapply List.Forall_impl; [|exact Hf].
       intros c Hc Ec. subst c.
       assert (Hno : existsb (Ascii.eqb "="%char) b64_alphabet = false) by reflexivity.
       apply Bool.not_true_iff_false in Hno. apply Hno.
       apply existsb_exists. exists "="%char. split; [exact Hc|]. apply Ascii.eqb_refl. }
  rewrite rev_involutive, StatusListProofs.length_string_of_list_ascii, list_ascii_of_string_of_list_ascii.
  split; [exact Hl|exact Hf].
Qed.

(** [b64url] strips exactly the padding: its output has
    [ceil(4 * len(data) / 3)] characters, all from the URL-safe alphabet
    [A-Z a-z 0-9 - _] (so a 12-byte nonce gives 16 characters and a
    32-byte digest 43). *)
Theorem b64url_shape (data : bytes) :
  String.length (b64url data) = ((4 * length data + 2) / 3)%nat /\
  List.Forall (fun c => In c b64_alphabet) (list_ascii_of_string (b64url data)).
Proof. exact (b64url_length_alphabet data). Qed.

Lemma length_be_bytes n v : length (be_bytes n v) = n.
Proof.
  revert v. induction n as [|n IH]; intros v; [done|]. simpl.
  rewrite length_app, IH. simpl. lia.
Qed.

Lemma sha_round_length s kw : length s = 8%nat -> length (sha_round s kw) = 8%nat.
Proof.
  intros H. do 8 (destruct s as [|? s]; [discriminate|]).
  destruct s; [reflexivity|discriminate].
Qed.

Lemma sha_compress_length H block : length H = 8%nat -> length (sha_compress H block) = 8%nat.
Proof.
  intros HH. unfold sha_compress. rewrite length_map, length_combine.
  assert (Hf : forall kws s, length s = 8%nat -> length (fold_left sha_round kws s) = 8%nat).
  { induction kws as [|kw kws IH]; intros s Hs; [done|]. simpl.
    apply IH. by apply sha_round_length. }
  rewrite Hf by done. lia.
Qed.

Lemma sha_blocks_length fuel H m : length H = 8%nat -> length (sha_blocks fuel H m) = 8%nat.
Proof.
  revert H m. induction fuel as [|fuel IH]; intros H m HH; [done|]. simpl.
  destruct m; [done|]. apply IH. by apply sha_compress_length.
Qed.

(** A SHA-256 digest is 32 bytes. *)
Lemma sha256_length m : length (sha256 m) = 32%nat.
Proof.
  unfold sha256.
  assert (Hc : forall ws, length (List.concat (List.map (be_bytes 4) ws)) = (4 * length ws)%nat).
  { induction ws as [|w ws IH]; [done|]. cbn [List.map List.concat].
    rewrite length_app, IH, length_be_bytes. simpl. lia. }
  rewrite Hc, sha_blocks_length; [done|]. vm_compute. reflexivity.
Qed.

(** The root [merkle_commit] returns is the [b64url] of a 32-byte digest:
    43 characters of the URL-safe alphabet, for any attributes and order. *)
Theorem merkle_root_shape (attrs : list (string * json)) (order : list string) (m : merkle) :
  merkle_commit attrs order = Some m ->
  String.length (m_root m) = 43%nat /\
  List.Forall (fun c => In c b64_alphabet) (list_ascii_of_string (m_root m)).
Proof.
  unfold merkle_commit. destruct (map_raise (leaf attrs) order) as [leaves|]; [|discriminate].
  intros [= <-]. simpl.
  destruct (b64url_length_alphabet (sha256 (List.concat leaves))) as [Hl Hf].
  rewrite sha256_length in Hl. split; [exact Hl|exact Hf].
Qed.

Lemma merkle_root_shape_witness :
  exists m, merkle_commit (Presentation.cr_attrs cred_alice) ["name"; "status"] = Some m /\
    String.length (m_root m) = 43%nat /\
    List.Forall (fun c => In c b64_alphabet) (list_ascii_of_string (m_root m)).
Proof.
  eexists. assert (E : merkle_commit (Presentation.cr_attrs cred_alice) ["name"; "status"]
                         = Some _) by (vm_compute; reflexivity).
  split; [exact E|]. exact (merkle_root_shape _ _ _ E).
Defined.

Lemma length_string_app s t : String.length (s +:+ t) = (String.length s + String.length t)%nat.
Proof. induction s as [|a s IH]; [done|]. simpl. rewrite IH. done. Qed.

Lemma length_substring0 n s : (n <= String.length s)%nat -> String.length (substring 0 n s) = n.
Proof.
  revert n. induction s as [|a s IH]; intros [|n] H; simpl in *; try lia; try done.
  f_equal. apply IH. lia.
Qed.

(** For a P-256 key, whose coordinates are 32 bytes each, the DID is
    ["did:key:z"] followed by 46 characters of the URL-safe base64
    alphabet: 55 characters in all. *)
Theorem did_from_jwk_public_shape (k : ec_key) :
  length (key_x k) = 32%nat -> length (key_y k) = 32%nat ->
  exists t, did_from_jwk_public k = "did:key:z" +:+ t /\ String.length t = 46%nat /\
    List.Forall (fun c => In c b64_alphabet) (list_ascii_of_string t) /\
    String.length (did_from_jwk_public k) = 55%nat.
Proof.
  intros Hx Hy. exists (str_take 46 (fingerprint k)).
  assert (Hfp : fingerprint k = b64url (key_x k ++ key_y k)) by reflexivity.
  destruct (b64url_length_alphabet (key_x k ++ key_y k)) as [Hl Hf].
  rewrite length_app, Hx, Hy in Hl. simpl in Hl.
  assert (Ht : String.length (str_take 46 (fingerprint k)) = 46%nat).
  { unfold str_take. apply length_substring0. rewrite Hfp, Hl. lia. }
  split; [reflexivity|]. split; [exact Ht|]. split.
  - unfold str_take. apply DidProofs.substring_forall. rewrite Hfp. exact Hf.
  - unfold did_from_jwk_public. rewrite length_string_app, Ht. reflexivity.
Qed.

Lemma did_from_jwk_public_shape_witness :
  length (key_x key_zero) = 32%nat /\ length (key_y key_zero) = 32%nat /\
  exists t, did_from_jwk_public key_zero = "did:key:z" +:+ t /\ String.length t = 46%nat /\
    List.Forall (fun c => In c b64_alphabet) (list_ascii_of_string t) /\
    String.length (did_from_jwk_public key_zero) = 55%nat.
Proof.
  assert (Hx : length (key_x key_zero) = 32%nat) by reflexivity.
  assert (Hy : length (key_y key_zero) = 32%nat) by reflexivity.
  split; [exact Hx|]. split; [exact Hy|]. exact (did_from_jwk_public_shape key_zero Hx Hy).
Defined.

End EncodingProofs.

Module PresentationFlowProofs.
Import Py Json Utils Store Challenge Presentation Demo.


(** A presentation of a revoked credential is refused with
    ["credential revoked"], but only after its challenge was checked and
    removed: the nonce is spent. *)
Theorem verify_revoked_spends_nonce (box : Type) (seal : string -> payload -> option box)
    (unseal : box -> payload) :
  (forall did p b, seal did p = Some b -> unseal b = p) ->
  forall (r : redis) (d : db) (now now' : Z) (rnd : bytes) (verifier_did : string)
         (cred : credential) (reveal_fields : list string) (r1 : redis) (b : box),
  build box seal r now rnd verifier_did cred reveal_fields = (r1, Ok b) ->
  now' <= now + 300 ->
  is_revoked d (cr_list_id cred) (cr_index cred) = Ok true ->
  verify_and_extract box unseal r1 d now' b =
    (delete (challenge_key (b64url rnd)) r1, Raise (HTTPException 400 "credential revoked")).
Proof.
  intros Hseal r d now now' rnd verifier_did cred reveal_fields r1 b Hb Hfresh Hrev.
  unfold build, issue in Hb. simpl in Hb.
  match type of Hb with
  | (match seal verifier_did ?p with _ => _ end) = _ => set (pl := p) in Hb
  end.
  destruct (seal verifier_did pl) as [b'|] eqn:Es; [|discriminate].
  injection Hb as <- <-.
  apply Hseal in Es.
  unfold verify_and_extract. rewrite Es. unfold pl. simpl.
  unfold validate. rewrite lookup_insert_eq. simpl.
  rewrite String.eqb_refl. simpl.
  assert (Hn : (now + 300 <? now') = false) by (apply Z.ltb_ge; lia).
  rewrite Hn. simpl. rewrite Hrev. reflexivity.
Qed.

Definition db_rev_published : db := (publish db_rev list_demo).1.

Lemma verify_revoked_spends_nonce_witness :
  exists r1 b,
    build payload (fun _ p => Some p) ∅ 1000 rnd_demo "did:key:zVerifier" cred_alice ["name"]
      = (r1, Ok b) /\
    1100 <= 1000 + 300 /\
    is_revoked db_rev_published (cr_list_id cred_alice) (cr_index cred_alice) = Ok true /\
    verify_and_extract payload (fun p => p) r1 db_rev_published 1100 b =
      (delete (challenge_key (b64url rnd_demo)) r1,
       Raise (HTTPException 400 "credential revoked")).
Proof.
  eexists. eexists.
  assert (Hb : build payload (fun _ p => Some p) ∅ 1000 rnd_demo "did:key:zVerifier" cred_alice
                 ["name"] = (_, Ok _)) by reflexivity.
  assert (Hr : is_revoked db_rev_published (cr_list_id cred_alice) (cr_index cred_alice) = Ok true)
    by (vm_compute; reflexivity).
  split; [exact Hb|]. split; [lia|]. split; [exact Hr|].
  apply (verify_revoked_spends_nonce payload (fun _ p => Some p) (fun p => p)
           (fun _ _ _ H => eq_sym (Some_inj _ _ H))
           ∅ db_rev_published 1000 1100 rnd_demo "did:key:zVerifier" cred_alice ["name"] _ _ Hb);
    [lia|exact Hr].
Defined.

Lemma validate_raise (r : redis) now nonce aud e :
  (validate r now nonce aud).2 = Raise e -> e = KeyError \/ e = TypeError.
Proof.
  unfold validate, json_item.
  repeat case_match; simpl; intros Hr; try discriminate Hr; injection Hr as <-; try congruence; auto;
  match goal with H : Raise _ = Raise _ |- _ => injection H as <-; auto end.
Qed.

(** A presentation can be checked once: after [verify_and_extract]
    accepted a box, or refused it as revoked, the same box is refused with
    ["challenge invalid: nonce not found"], whatever the tables and the
    time, and the store is left as it is. *)
Theorem verify_replay_refused (box : Type) (unseal : box -> payload)
    (r r2 : redis) (d : db) (now : Z) (b : box) (o : outcome verify_result) :
  verify_and_extract box unseal r d now b = (r2, o) ->
  (exists res, o = Ok res) \/ o = Raise (HTTPException 400 "credential revoked") ->
  forall d' now',
  verify_and_extract box unseal r2 d' now' b =
    (r2, Raise (HTTPException 400 "challenge invalid: nonce not found")).
Proof.
  intros Hv Ho d' now'. unfold verify_and_extract in Hv.
  destruct (validate r now (p_nonce (unseal b)) (p_aud (unseal b))) as [r1 v] eqn:Ev.
  destruct v as [[[|] why]|e].
  - pose proof (ChallengeProofs.validate_success_deletes r now (p_nonce (unseal b))
                  (p_aud (unseal b)) why) as Hs.
    rewrite Ev in Hs. simpl in Hs. specialize (Hs eq_refl).
    assert (E : r2 = r1).
    { cbv zeta in Hv. destruct (is_revoked _ _ _) as [[|]|]; [congruence| |congruence].
      destruct (negb _); congruence. }
    subst r2. unfold verify_and_extract.
    rewrite (ChallengeProofs.validate_absent _ _ _ _ Hs). done.
  - injection Hv as <- <-. destruct Ho as [[res Hres]|Hres]; [discriminate|].
    injection Hres as Hres. discriminate Hres.
  - injection Hv as <- <-. pose proof (validate_raise r now (p_nonce (unseal b)) (p_aud (unseal b)) e) as He.
    rewrite Ev in He. destruct (He eq_refl) as [->| ->];
      destruct Ho as [[res Hres]|Hres]; discriminate.
Qed.

Lemma verify_replay_refused_witness :
  exists r1 b r2 res,
    build payload (fun _ p => Some p) ∅ 1000 rnd_demo "did:key:zVerifier" cred_alice ["name"]
      = (r1, Ok b) /\
    verify_and_extract payload (fun p => p) r1 db_empty 1100 b = (r2, Ok res) /\
    verify_and_extract payload (fun p => p) r2 db_rev 1200 b =
      (r2, Raise (HTTPException 400 "challenge invalid: nonce not found")).
Proof.
  do 4 eexists.
  assert (Hb : build payload (fun _ p => Some p) ∅ 1000 rnd_demo "did:key:zVerifier" cred_alice
                 ["name"] = (_, Ok _)) by reflexivity.
  split; [exact Hb|].
  match goal with |- ?A /\ _ => assert (Hv : A) by reflexivity end.
  split; [exact Hv|].
  exact (verify_replay_refused payload (fun p => p) _ _ db_empty 1100 _ _ Hv
           (or_introl (ex_intro _ _ eq_refl)) db_rev 1200).
Defined.



Lemma dict_get_dict_set {V} (d : list (string * V)) k v k' :
  dict_get (dict_set d k v) k' = if String.eqb k k' then Some v else dict_get d k'.
Proof.
  induction d as [|[k0 v0] d IH]; simpl; [done|].
  destruct (String.eqb_spec k0 k) as [->|Hne]; simpl.
  - by destruct (String.eqb k k').
  - rewrite IH. destruct (String.eqb_spec k0 k') as [->|]; [|done].
    destruct (String.eqb_spec k k'); [congruence|done].
Qed.

Lemma dict_set_keys {V} (d : list (string * V)) k v :
  NoDup (List.map fst d) -> NoDup (List.map fst (dict_set d k v)) /\
  (forall x, x ∈ List.map fst (dict_set d k v) <-> x = k \/ x ∈ List.map fst d).
Proof.
  induction d as [|[k0 v0] d IH]; intros Hnd; simpl.
  - split; [apply NoDup_singleton|]. intros y. set_solver.
  - apply NoDup_cons in Hnd as [Hnin Hnd'].
    destruct (String.eqb_spec k0 k) as [->|Hne]; simpl.
    + split; [by apply NoDup_cons|]. intros y. set_solver.
    + destruct (IH Hnd') as [Hnd'' Hin]. split.
      * apply NoDup_cons. split; [|done]. rewrite Hin. intros [->|?]; done.
      * intros y. rewrite !elem_of_cons, Hin. tauto.
Qed.

(** The disclosed attributes: [reveal] keeps a key exactly when it is
    among the requested fields and present in the credential, with the
    credential's value, and holds each key once. *)
Theorem reveal_lookup (attrs : list (string * json)) (reveal_fields : list string) :
  NoDup (List.map fst (reveal attrs reveal_fields)) /\
  forall k, dict_get (reveal attrs reveal_fields) k =
            if existsb (String.eqb k) reveal_fields then dict_get attrs k else None.
Proof.
  unfold reveal.
  set (step := fun (acc : list (string * json)) key =>
                 match dict_get attrs key with Some v => dict_set acc key v | None => acc end).
  assert (Hgen : forall fs acc, NoDup (List.map fst acc) ->
            NoDup (List.map fst (fold_left step fs acc)) /\
            forall k, dict_get (fold_left step fs acc) k =
              if existsb (String.eqb k) fs
              then match dict_get attrs k with Some v => Some v | None => dict_get acc k end
              else dict_get acc k).
  { induction fs as [|f fs IH]; intros acc Hnd; simpl; [by split|].
    assert (Hnd' : NoDup (List.map fst (step acc f))).
    { unfold step. destruct (dict_get attrs f); [|done]. by apply dict_set_keys. }
    destruct (IH (step acc f) Hnd') as [Hn Hk]. split; [done|].
    intros k. rewrite Hk. unfold step.
    destruct (String.eqb_spec k f) as [->|Hne]; simpl.
    - destruct (existsb _ fs); destruct (dict_get attrs f) eqn:Ef;
        rewrite ?dict_get_dict_set, ?String.eqb_refl, ?Ef; done.
    - destruct (dict_get attrs f) eqn:Ef; [|done].
      rewrite !dict_get_dict_set.
      destruct (String.eqb_spec f k) as [->|]; [congruence|done]. }
  destruct (Hgen reveal_fields [] NoDup_nil_2) as [Hn Hk]. split; [done|].
  intros k. rewrite Hk. simpl. by destruct (existsb _ _), (dict_get attrs k).
Qed.

End PresentationFlowProofs.

Module HandlerProofs.
Import Py Json Utils Store Challenge Presentation Handlers Demo.

(** [holder_present] issues a challenge only for a registered holder and
    verifier and a credential whose subject is that holder: otherwise it
    raises a 400 error and leaves the Redis store as it was. *)
Theorem holder_present_guard (box : Type) (seal : string -> payload -> option box)
    (holders verifiers : gmap string Did.DIDDoc) (creds : list credential)
    (r : redis) (now : Z) (rnd : bytes) (req : present_request) (r' : redis) (o : outcome box) :
  holder_present box seal holders verifiers creds r now rnd req = (r', o) ->
  (exists hd vd c,
     holders !! pr_holder_did req = Some hd /\ verifiers !! pr_verifier_did req = Some vd /\
     get_credential creds (pr_cred_id req) = Some c /\ cr_subject c = pr_holder_did req /\
     build box seal r now rnd (Did.doc_did vd) c (pr_reveal_fields req) = (r', o)) \/
  (r' = r /\ exists msg, o = Raise (HTTPException 400 msg)).
Proof.
  unfold holder_present.
  destruct (holders !! pr_holder_did req) as [hd|] eqn:Eh;
    [|intros [= <- <-]; right; eauto].
  destruct (verifiers !! pr_verifier_did req) as [vd|] eqn:Ev;
    [|intros [= <- <-]; right; eauto].
  destruct (get_credential creds (pr_cred_id req)) as [c|] eqn:Ec;
    [|intros [= <- <-]; right; eauto].
  destruct (String.eqb_spec (cr_subject c) (pr_holder_did req)) as [Hs|Hs];
    [|intros [= <- <-]; right; eauto].
  intros Hb. left. exists hd, vd, c. done.
Qed.

Definition doc_of (did : string) : Did.DIDDoc :=
  {| Did.doc_did := did; Did.public_sign := ""; Did.public_agree := "";
     Did.service_endpoint := "" |}.

Definition req_mallory : present_request :=
  {| pr_holder_did := "did:key:zMallory"; pr_cred_id := "cred:did:key:zIssuer:0";
     pr_reveal_fields := ["name"]; pr_verifier_did := "did:key:zVerifier" |}.

Lemma holder_present_guard_witness :
  holder_present payload (fun _ p => Some p)
    {[ "did:key:zMallory" := doc_of "did:key:zMallory" ]}
    {[ "did:key:zVerifier" := doc_of "did:key:zVerifier" ]}
    [cred_alice] r_demo 1000 rnd_demo req_mallory
    = (r_demo, Raise (HTTPException 400 "credential not found or not owned by holder")) /\
  ((exists hd vd c,
     ({[ "did:key:zMallory" := doc_of "did:key:zMallory" ]} : gmap string Did.DIDDoc)
        !! pr_holder_did req_mallory = Some hd /\
     ({[ "did:key:zVerifier" := doc_of "did:key:zVerifier" ]} : gmap string Did.DIDDoc)
        !! pr_verifier_did req_mallory = Some vd /\
     get_credential [cred_alice] (pr_cred_id req_mallory) = Some c /\
     cr_subject c = pr_holder_did req_mallory /\
     build payload (fun _ p => Some p) r_demo 1000 rnd_demo (Did.doc_did vd) c
       (pr_reveal_fields req_mallory)
       = (r_demo, Raise (HTTPException 400 "credential not found or not owned by holder"))) \/
   (r_demo = r_demo /\ exists msg,
      (Raise (HTTPException 400 "credential not found or not owned by holder") : outcome payload)
        = Raise (HTTPException 400 msg))).
Proof.
  assert (E : holder_present payload (fun _ p => Some p)
                {[ "did:key:zMallory" := doc_of "did:key:zMallory" ]}
                {[ "did:key:zVerifier" := doc_of "did:key:zVerifier" ]}
                [cred_alice] r_demo 1000 rnd_demo req_mallory
              = (r_demo, Raise (HTTPException 400 "credential not found or not owned by holder")))
    by reflexivity.
  split; [exact E|]. exact (holder_present_guard _ _ _ _ _ _ _ _ _ _ _ E).
Defined.

End HandlerProofs.

Module JweProofs.
Import Py Json Store Did Jwe.

Lemma split_chars_nonempty sep l : split_chars sep l <> [].
Proof.
  destruct l as [|c l]; simpl; [discriminate|].
  destruct (Ascii.eqb c sep); [discriminate|]. destruct (split_chars sep l); discriminate.
Qed.

Lemma join_cons sep x xs :
  join sep (x :: xs) = match xs with [] => x | _ => x +:+ sep +:+ join sep xs end.
Proof. by destruct xs. Qed.

(** [sep.join(s.split(sep))] gives [s] back. *)
Lemma join_split (sep : ascii) (l : list ascii) :
  join (String sep EmptyString) (List.map string_of_list_ascii (split_chars sep l))
    = string_of_list_ascii l.
Proof.
  induction l as [|c l IH]; [done|]. simpl.
  pose proof (split_chars_nonempty sep l) as Hne.
  destruct (Ascii.eqb_spec c sep) as [->|Hc].
  - destruct (split_chars sep l) as [|w ws]; [done|]. simpl in *. by rewrite IH.
  - destruct (split_chars sep l) as [|w [|w' ws]]; [done|..]; simpl in *.
    + by rewrite IH.
    + by rewrite <- IH.
Qed.

(** The box [jwe_encrypt_for_did] returns holds the five segments of the
    compact serialization, and [jwe_decrypt_for_did] joins them back into
    exactly that string; with fewer than five segments the encryption side
    raises [IndexError]. *)
Theorem compact_box_roundtrip (compact : string) :
  (length (split "."%char compact) = 5%nat ->
   exists b, box_of_compact compact = Ok b /\ compact_of_box b = compact) /\
  ((length (split "."%char compact) < 5)%nat -> box_of_compact compact = Raise IndexError).
Proof.
  pose proof (join_split "."%char (list_ascii_of_string compact)) as Hj.
  rewrite string_of_list_ascii_of_string in Hj. fold (split "."%char compact) in Hj.
  unfold box_of_compact. split.
  - intros H5. destruct (split "."%char compact) as [|p0 [|p1 [|p2 [|p3 [|p4 [|? ?]]]]]];
      simpl in H5; try lia.
    eexists. split; [reflexivity|]. exact Hj.
  - intros H5. destruct (split "."%char compact) as [|p0 [|p1 [|p2 [|p3 [|p4 ?]]]]];
      simpl in H5; try lia; reflexivity.
Qed.

Lemma compact_box_roundtrip_witness :
  length (split "."%char "hdr.key.iv.ct.tag") = 5%nat /\
  exists b, box_of_compact "hdr.key.iv.ct.tag" = Ok b /\ compact_of_box b = "hdr.key.iv.ct.tag".
Proof.
  assert (H5 : length (split "."%char "hdr.key.iv.ct.tag") = 5%nat) by reflexivity.
  split; [exact H5|]. exact (proj1 (compact_box_roundtrip "hdr.key.iv.ct.tag") H5).
Defined.

End JweProofs.

Module IssuanceProofs.
Import Py Json Utils Store Presentation Issuance Demo.

Lemma insert_str_perm k l : Permutation (insert_str k l) (k :: l).
Proof.
  induction l as [|k' l IH]; simpl; [done|].
  destruct (String.ltb k' k); [|done].
  eapply perm_trans; [apply perm_skip, IH|apply perm_swap].
Qed.

Lemma py_sorted_perm l : Permutation (py_sorted l) l.
Proof.
  induction l as [|k l IH]; simpl; [done|].
  eapply perm_trans; [apply insert_str_perm|apply perm_skip, IH].
Qed.

Lemma ltb_leb a b : String.ltb a b = true -> String.leb a b = true.
Proof. unfold String.ltb, String.leb. by destruct (String.compare a b). Qed.

Lemma not_ltb_leb a b : String.ltb a b = false -> String.leb b a = true.
Proof.
  unfold String.ltb, String.leb. rewrite (String.compare_antisym b a).
  by destruct (String.compare a b).
Qed.

Lemma insert_str_hd x k l :
  String.leb x k = true -> HdRel (fun a b => String.leb a b = true) x l ->
  HdRel (fun a b => String.leb a b = true) x (insert_str k l).
Proof.
  intros Hxk Hl. destruct l as [|k' l]; simpl; [by constructor|].
  destruct (String.ltb k' k); constructor; [by inversion Hl|done].
Qed.

Lemma insert_str_sorted k l :
  Sorted (fun a b => String.leb a b = true) l ->
  Sorted (fun a b => String.leb a b = true) (insert_str k l).
Proof.
  induction l as [|k' l IH]; intros Hs; simpl; [by repeat constructor|].
  inversion Hs as [|? ? Hs' Hhd]; subst.
  destruct (String.ltb k' k) eqn:E.
  - constructor; [by apply IH|]. apply insert_str_hd; [by apply ltb_leb|done].
  - constructor; [done|]. constructor. by apply not_ltb_leb.
Qed.

Lemma py_sorted_sorted l : Sorted (fun a b => String.leb a b = true) (py_sorted l).
Proof.
  induction l as [|k l IH]; simpl; [constructor|]. by apply insert_str_sorted.
Qed.

Lemma dict_get_of_in (attrs : list (string * json)) k :
  In k (List.map fst attrs) -> is_Some (dict_get attrs k).
Proof.
  induction attrs as [|[k0 v0] attrs IH]; simpl; [done|].
  intros [->|H]; [rewrite String.eqb_refl; by eexists|].
  destruct (String.eqb k0 k); [by eexists|by apply IH].
Qed.

Lemma create_credential_eq (d : db) (now : Z) (issuer_did subject_did : string)
    (attrs : list (string * json)) (list_id : string) (index : Z) :
  exists m,
    Permutation (m_order m) (List.map fst attrs) /\
    Sorted (fun a b => String.leb a b = true) (m_order m) /\
    merkle_commit attrs (m_order m) = Some m /\
    create_credential d now issuer_did subject_did attrs list_id index =
      (let cred_id := "cred:" +:+ issuer_did +:+ ":" +:+ int_repr index in
       if existsb (fun r => String.eqb (c_id r) cred_id) (credentials d)
       then (d, inr IntegrityError)
       else ({| credentials := credentials d ++
                  [{| c_id := cred_id; c_issuer := issuer_did; c_subject := subject_did;
                      c_list_id := list_id; c_index := index |}];
                revocations := revocations d; statuslists := statuslists d |},
             inl ({| cr_id := cred_id; cr_issuer := issuer_did; cr_subject := subject_did;
                     cr_schema := "example:student-id-v1"; cr_attrs := attrs; cr_merkle := m;
                     cr_list_id := list_id; cr_index := index |}, now))).
Proof.
  set (order := py_sorted (List.map fst attrs)).
  assert (Hall : List.Forall (fun k => is_Some (leaf attrs k)) order).
  { apply List.Forall_forall. intros k Hk.
    apply (Permutation_in _ (py_sorted_perm _)) in Hk.
    destruct (dict_get_of_in attrs k Hk) as [v Hv].
    unfold leaf. rewrite Hv. by eexists. }
  assert (Hm : exists m, merkle_commit attrs order = Some m /\ m_order m = order).
  { unfold merkle_commit. rewrite (MerkleProofs.map_raise_some _ [] _ Hall). by eexists. }
  destruct Hm as [m [Em Ho]]. exists m. rewrite Ho.
  split; [apply py_sorted_perm|]. split; [apply py_sorted_sorted|]. split; [done|].
  unfold create_credential. fold order. rewrite Em. reflexivity.
Qed.

(** [create_credential] never raises [KeyError]: it commits to the
    attributes in sorted key order, every key once; it then inserts the row
    ["cred:<issuer>:<index>"], or fails with a primary-key violation, and
    no table changes, when that id is taken. *)
Theorem create_credential_spec (d : db) (now : Z) (issuer_did subject_did : string)
    (attrs : list (string * json)) (list_id : string) (index : Z) :
  exists m,
    Permutation (m_order m) (List.map fst attrs) /\
    Sorted (fun a b => String.leb a b = true) (m_order m) /\
    merkle_commit attrs (m_order m) = Some m /\
    create_credential d now issuer_did subject_did attrs list_id index =
      (let cred_id := "cred:" +:+ issuer_did +:+ ":" +:+ int_repr index in
       if existsb (fun r => String.eqb (c_id r) cred_id) (credentials d)
       then (d, inr IntegrityError)
       else ({| credentials := credentials d ++
                  [{| c_id := cred_id; c_issuer := issuer_did; c_subject := subject_did;
                      c_list_id := list_id; c_index := index |}];
                revocations := revocations d; statuslists := statuslists d |},
             inl ({| cr_id := cred_id; cr_issuer := issuer_did; cr_subject := subject_did;
                     cr_schema := "example:student-id-v1"; cr_attrs := attrs; cr_merkle := m;
                     cr_list_id := list_id; cr_index := index |}, now))).
Proof. apply create_credential_eq. Qed.

Lemma max_index_none (rows : list cred_row) l :
  (forall r, In r rows -> c_list_id r <> l) -> max_index rows l = None.
Proof.
  induction rows as [|r rows IH]; intros H; simpl; [done|].
  destruct (String.eqb_spec (c_list_id r) l) as [E|_]; [exfalso; apply (H r); [by left|done]|].
  apply IH. intros r' Hr'. apply H. by right.
Qed.

Lemma max_index_app_one (rows : list cred_row) r l :
  (forall r', In r' rows -> c_list_id r' <> l) -> c_list_id r = l ->
  max_index (rows ++ [r]) l = Some (c_index r).
Proof.
  intros H Hr. induction rows as [|r' rows IH]; simpl.
  - rewrite Hr, String.eqb_refl. done.
  - destruct (String.eqb_spec (c_list_id r') l) as [E|_]; [exfalso; apply (H r'); [by left|done]|].
    apply IH. intros r'' Hr''. apply H. by right.
Qed.

Lemma get_or_create_list_row (d : db) issuer_did :
  credentials (get_or_create_list d issuer_did).1 = credentials d /\
  is_Some (statuslists (get_or_create_list d issuer_did).1 !! status_list_id issuer_did).
Proof.
  unfold get_or_create_list. destruct (statuslists d !! _) eqn:E; simpl.
  - split; [done|]. rewrite E. by eexists.
  - split; [done|]. rewrite lookup_insert_eq. by eexists.
Qed.

Lemma get_or_create_list_existing (d : db) issuer_did :
  is_Some (statuslists d !! status_list_id issuer_did) ->
  get_or_create_list d issuer_did = (d, status_list_id issuer_did).
Proof. intros [v Hv]. unfold get_or_create_list. by rewrite Hv. Qed.

(** Issuing twice for an issuer whose list has no credential yet: the
    first issuance gets index 0 and id ["cred:<issuer>:0"]; [allocate]
    hands out 0 again (the maximum 0 is falsy), so the second issuance
    hits the same id and fails with a primary-key violation, leaving the
    tables as the first one left them. *)
Theorem issue_twice_conflict (d : db) (now now' : Z) (issuer_did subject_did subject_did' : string)
    (attrs attrs' : list (string * json)) :
  (forall r, In r (credentials d) ->
     c_list_id r <> status_list_id issuer_did /\ c_id r <> "cred:" +:+ issuer_did +:+ ":0") ->
  exists d1 c,
    issue_credential d now issuer_did subject_did attrs = (d1, inl (c, now)) /\
    cr_index c = 0 /\ cr_id c = "cred:" +:+ issuer_did +:+ ":0" /\
    issue_credential d1 now' issuer_did subject_did' attrs' = (d1, inr IntegrityError).
Proof.
  intros H.
  set (l := status_list_id issuer_did).
  set (cid := "cred:" +:+ issuer_did +:+ ":0").
  unfold issue_credential.
  rewrite (proj1 (StatusListProofs.allocate_eq d issuer_did)).
  rewrite (max_index_none _ _ (fun r Hr => proj1 (H r Hr))).
  cbv beta iota.
  destruct (get_or_create_list_row d issuer_did) as [Hc0 Hs0].
  set (d0 := (get_or_create_list d issuer_did).1) in *.
  destruct (create_credential_eq d0 now issuer_did subject_did attrs l 0) as (m & _ & _ & _ & Ecc).
  fold l. rewrite Ecc. cbv zeta.
  replace (":" +:+ int_repr 0) with ":0" by reflexivity. fold cid.
  assert (Hno : existsb (fun r => String.eqb (c_id r) cid) (credentials d0) = false).
  { rewrite Hc0. apply Bool.not_true_iff_false. intros Hex.
    apply existsb_exists in Hex as [r [Hr Er]]. apply String.eqb_eq in Er.
    by apply (H r Hr). }
  rewrite Hno.
  set (row0 := {| c_id := cid; c_issuer := issuer_did; c_subject := subject_did;
                  c_list_id := l; c_index := 0 |}).
  set (d1 := {| credentials := credentials d0 ++ [row0]; revocations := revocations d0;
                statuslists := statuslists d0 |}).
  do 2 eexists. split; [reflexivity|]. split; [reflexivity|]. split; [reflexivity|].
  assert (Hmx : max_index (credentials d1) l = Some 0).
  { apply (max_index_app_one _ row0 l); [|done].
    rewrite Hc0. intros r Hr. exact (proj1 (H r Hr)). }
  rewrite (proj1 (StatusListProofs.allocate_eq d1 issuer_did)).
  rewrite (get_or_create_list_existing d1 issuer_did Hs0). fold l. rewrite Hmx.
  cbv beta iota. rewrite Z.eqb_refl.
  destruct (create_credential_eq d1 now' issuer_did subject_did' attrs' l 0)
    as (m' & _ & _ & _ & Ecc'). simpl fst. rewrite Ecc'. cbv zeta.
  replace (":" +:+ int_repr 0) with ":0" by reflexivity. fold cid.
  replace (existsb (fun r => String.eqb (c_id r) cid) (credentials d1)) with true; [done|].
  symmetry. apply existsb_exists. exists row0. split; [simpl; apply in_or_app; right; by left|].
  apply String.eqb_refl.
Qed.

Lemma issue_twice_conflict_witness :
  (forall r, In r (credentials db_empty) ->
     c_list_id r <> status_list_id issuer_demo /\ c_id r <> "cred:" +:+ issuer_demo +:+ ":0") /\
  exists d1 c,
    issue_credential db_empty 1000 issuer_demo "did:key:zHolder" [("name", JStr "Alice")]
      = (d1, inl (c, 1000)) /\
    cr_index c = 0 /\ cr_id c = "cred:" +:+ issuer_demo +:+ ":0" /\
    issue_credential d1 1001 issuer_demo "did:key:zBob" [("name", JStr "Bob")]
      = (d1, inr IntegrityError).
Proof.
  assert (H : forall r, In r (credentials db_empty) ->
     c_list_id r <> status_list_id issuer_demo /\ c_id r <> "cred:" +:+ issuer_demo +:+ ":0")
    by (intros r []).
  split; [exact H|].
  exact (issue_twice_conflict db_empty 1000 1001 issuer_demo "did:key:zHolder" "did:key:zBob"
           [("name", JStr "Alice")] [("name", JStr "Bob")] H).
Defined.

End IssuanceProofs.
